(** * Live speech segmentation of the Mira terminal client

    A shallow embedding of [whisper_live.py]: the observer life cycle
    ([start_observer], [is_observer_running], [kill_observer],
    [refresh_observer]) and the segmentation step [silent_observer]; and of
    [mira.py]: the calls to the server and the main loop.  The properties of
    the step, of sequences of steps and of the client follow.

    Conventions of the embedding.
    - The module-level globals of [whisper_live.py] are one record, [globals],
      passed in and out of every function that declares them [global].
    - What the environment answers during one call of [silent_observer] is
      one record, [frame_input]: the result of [stream.read], the result of
      [vad.is_speech] and the reading of [time.perf_counter].
    - A call that may raise has an [outcome]: it returns a value or raises.
    - Readings of [time.perf_counter] are binary64 floating-point numbers,
      in seconds, and the code's subtraction and comparisons of them are the
      IEEE 754 operations of [PrimFloat].
    - SIGINT is outside the embedding: the functions are those of a run in
      which no signal arrives.
    - [print] appends to a list of [output] records; the text layout of a
      status line (padding, carriage return, two decimals) is not modelled. *)

From Stdlib Require Import PrimFloat ZArith List Bool String Lia.
Import ListNotations.

Open Scope string_scope.
Open Scope list_scope.
Open Scope float_scope.

Set Implicit Arguments.

(** ** Calls that may raise *)

Inductive outcome (A : Type) : Type :=
| Returns (a : A)
| Raises (e : string).

Arguments Returns {A} a.
Arguments Raises {A} e.

Definition bind {A B : Type} (c : outcome A) (k : A -> outcome B) : outcome B :=
  match c with
  | Returns a => k a
  | Raises e => Raises e
  end.

Notation "x <- c ;; k" := (bind c (fun x => k))
  (at level 61, c at next level, right associativity).

(** ** Constants *)

Definition bytearray := list Byte.byte.

Inductive sample_format := paInt16.

Definition CHANNELS : Z := 1.
Definition FORMAT : sample_format := paInt16.
Definition SAMPLE_RATE : Z := 16000.
Definition FRAME_MS : Z := 30.
(** [int(SAMPLE_RATE * FRAME_MS / 1000) * 2]; the quotient is exact. *)
Definition FRAME_BYTES : Z := Z.quot (SAMPLE_RATE * FRAME_MS) 1000 * 2.
(** The literal [0.6] is the double nearest to 6/10, as in Python. *)
Set Warnings "-inexact-float".
Definition MAX_SILENCE_BREAK : float := 0.6.
Set Warnings "inexact-float".

(** ** Globals *)

Inductive stream_phase := StreamActive | StreamStopped | StreamClosed.

Record stream_t := mkStream {
  s_format : sample_format;
  s_channels : Z;
  s_rate : Z;
  s_input : bool;
  s_frames_per_buffer : Z;
  s_phase : stream_phase
}.

(** [vad], [pa] and [stream] are unbound ([None]) until [start_observer]
    binds them; [vad] holds the aggressiveness passed to [webrtcvad.Vad],
    [pa] whether the PyAudio instance is live or terminated.  [silence_start]
    and [did_speak] are unbound as well before the first [start_observer];
    no function reads them before [stream] is bound, and the record keeps
    them total. *)
Record globals := mkGlobals {
  vad : option Z;
  pa : option bool;
  stream : option stream_t;
  silence_start : float;
  did_speak : bool;
  enabled : bool
}.

Definition set_timing (ss : float) (ds : bool) (g : globals) : globals :=
  {| vad := vad g; pa := pa g; stream := stream g;
     silence_start := ss; did_speak := ds; enabled := enabled g |}.

(** ** Observer life cycle *)

(** What the three calls of [start_observer] do, each if it is reached:
    [webrtcvad.Vad(3)], [pyaudio.PyAudio()], [pa.open(...)]. *)
Record start_calls := mkStartCalls {
  vad_created : outcome unit;
  pyaudio_created : outcome unit;
  stream_opened : outcome unit
}.

(** The assignments are made in order and the first exception leaves the
    function: [vad] and [pa] stay bound when a later call fails, and the
    timing globals and [enabled] are assigned only when [pa.open] returns. *)
Definition start_observer (d : start_calls) (g : globals)
  : globals * outcome unit :=
  match vad_created d with
  | Raises e => (g, Raises e)
  | Returns _ =>
      let g1 := {| vad := Some 3%Z; pa := pa g; stream := stream g;
                   silence_start := silence_start g; did_speak := did_speak g;
                   enabled := enabled g |} in
      match pyaudio_created d with
      | Raises e => (g1, Raises e)
      | Returns _ =>
          let g2 := {| vad := vad g1; pa := Some true; stream := stream g1;
                       silence_start := silence_start g1;
                       did_speak := did_speak g1; enabled := enabled g1 |} in
          match stream_opened d with
          | Raises e => (g2, Raises e)
          | Returns _ =>
              ({| vad := vad g2; pa := pa g2;
                  stream := Some (mkStream FORMAT CHANNELS SAMPLE_RATE true
                                    (FRAME_BYTES / 2) StreamActive);
                  silence_start := -1;
                  did_speak := false;
                  enabled := true |}, Returns tt)
          end
      end
  end.

Definition is_observer_running (g : globals) : bool := enabled g.

(** What the three device calls of [kill_observer] do, each if it is
    reached: [stream.stop_stream()], [stream.close()], [pa.terminate()]. *)
Record device_calls := mkDeviceCalls {
  stop_stream_result : outcome unit;
  close_result : outcome unit;
  terminate_result : outcome unit
}.

Definition set_phase (ph : stream_phase) (s : stream_t) : stream_t :=
  mkStream (s_format s) (s_channels s) (s_rate s) (s_input s)
    (s_frames_per_buffer s) ph.

Definition set_stream (s : option stream_t) (g : globals) : globals :=
  {| vad := vad g; pa := pa g; stream := s;
     silence_start := silence_start g; did_speak := did_speak g;
     enabled := enabled g |}.

(** The calls are made in order and the first exception leaves the function:
    [enabled = False] is reached only when all three have returned. *)
Definition kill_observer (d : device_calls) (g : globals)
  : globals * outcome unit :=
  match stream g with
  | None => (g, Raises "name 'stream' is not defined")
  | Some s =>
      match stop_stream_result d with
      | Raises e => (g, Raises e)
      | Returns _ =>
          let g1 := set_stream (Some (set_phase StreamStopped s)) g in
          match close_result d with
          | Raises e => (g1, Raises e)
          | Returns _ =>
              let g2 := set_stream (Some (set_phase StreamClosed s)) g in
              match pa g with
              | None => (g2, Raises "name 'pa' is not defined")
              | Some _ =>
                  match terminate_result d with
                  | Raises e => (g2, Raises e)
                  | Returns _ =>
                      ({| vad := vad g2; pa := Some false; stream := stream g2;
                          silence_start := silence_start g2;
                          did_speak := did_speak g2;
                          enabled := false |}, Returns tt)
                  end
              end
          end
      end
  end.

Definition refresh_observer (g : globals) : globals :=
  set_timing (-1) false g.

(** ** The segmentation step *)

Record frame_input := mkInput {
  read : outcome bytearray;
  vad_result : outcome bool;
  clock : float
}.

Inductive status :=
| Speaking
| Silence (elapsed : float)
| WaitingForSpeech.

Inductive output :=
| PrintVadError (e : string)
| PrintStatus (s : status).

(** The value of [silent_observer]: the pair it returns, with the globals and
    the lines printed during the call. *)
Record observed := mkObserved {
  st : globals;
  out : list output;
  buf : bytearray;
  complete : bool
}.

(** [silence_start == -1], the comparison of IEEE 754. *)
Definition unset (ss : float) : bool := (ss =? -1).

Definition silent_observer (i : frame_input) (g : globals)
  (sentence_buf : bytearray) : outcome observed :=
  frame <- read i ;;
  if negb (Z.of_nat (List.length frame) =? FRAME_BYTES)%Z then
    Returns (mkObserved g [] sentence_buf false)
  else
    match vad_result i with
    | Raises e => Returns (mkObserved g [PrintVadError e] sentence_buf false)
    | Returns is_speech =>
        let sentence_buf := sentence_buf ++ frame in
        let now := clock i in
        let status :=
          if is_speech then Speaking
          else if did_speak g then
            Silence (now - (if negb (unset (silence_start g))
                            then silence_start g else 0))
          else WaitingForSpeech in
        let printed := [PrintStatus status] in
        if is_speech then
          Returns (mkObserved (set_timing (-1) true g) printed sentence_buf false)
        else if unset (silence_start g) then
          if did_speak g then
            Returns (mkObserved (set_timing now (did_speak g) g) printed
                       sentence_buf false)
          else Returns (mkObserved g printed sentence_buf false)
        else if (MAX_SILENCE_BREAK <=? now - silence_start g) then
          Returns (mkObserved (refresh_observer g) printed sentence_buf true)
        else Returns (mkObserved g printed sentence_buf false)
    end.

(** ** Sequences of steps *)

(** The loop of [mira.py] while the server keeps the client enabled and the
    observer runs: [sentence_buf, is_sentence_complete =
    silent_observer(sentence_buf)], once per entry of [ins].  The buffer is
    passed on to the next call whether or not the sentence is complete; an
    exception leaves the loop. *)
Record run := mkRun {
  final : globals;
  sentence : bytearray;
  flags : list bool;
  printed : list output
}.

Fixpoint observe (ins : list frame_input) (g : globals)
  (sentence_buf : bytearray) : outcome run :=
  match ins with
  | [] => Returns (mkRun g sentence_buf [] [])
  | i :: rest =>
      r <- silent_observer i g sentence_buf ;;
      rr <- observe rest (st r) (buf r) ;;
      Returns (mkRun (final rr) (sentence rr) (complete r :: flags rr)
                 (out r ++ printed rr))
  end.

(** A frame of the fixed length, [len(frame) == FRAME_BYTES]. *)
Definition full_frame (frame : bytearray) : bool :=
  (Z.of_nat (List.length frame) =? FRAME_BYTES)%Z.

(** What a call makes of its frame: [Some b] when the frame passes the length
    test and the classifier returns [b], [None] when the call returns before
    classification (short read, classifier error) or the read raises. *)
Definition classified (i : frame_input) : option bool :=
  match read i, vad_result i with
  | Returns frame, Returns b => if full_frame frame then Some b else None
  | _, _ => None
  end.

(** The bytes a call appends to the buffer. *)
Definition appended (i : frame_input) : bytearray :=
  match read i, classified i with
  | Returns frame, Some _ => frame
  | _, _ => []
  end.

(** The classification of the most recent classified frame after one more
    call, and after a run of calls; [last] is the one before, if any. *)
Definition last_after (i : frame_input) (last : option bool) : option bool :=
  match classified i with Some b => Some b | None => last end.

Fixpoint last_classified (ins : list frame_input) (last : option bool)
  : option bool :=
  match ins with
  | [] => last
  | i :: rest => last_classified rest (last_after i last)
  end.

(** [float(z)] for an integer: exact below 2^53 in absolute value, where
    every step of the conversion is. *)
Fixpoint float_of_pos (p : positive) : float :=
  match p with
  | xH => 1
  | xO q => 2 * float_of_pos q
  | xI q => 2 * float_of_pos q + 1
  end.

Definition float_of_Z (z : Z) : float :=
  match z with
  | Z0 => 0
  | Zpos p => float_of_pos p
  | Zneg p => - float_of_pos p
  end.

(** Frames arriving every [FRAME_MS] milliseconds after the time [t0], in
    milliseconds: frame [k] (counted from 1) arrives at [t0 + k * FRAME_MS]
    ms, and the clock then reads the double nearest to that time in seconds
    (the quotient of two integers held exactly, correctly rounded). *)
Definition arrival (t0 : Z) (k : nat) : float :=
  float_of_Z (t0 + FRAME_MS * Z.of_nat k) / 1000.

(** The calls of a run in which frame [k] is [frames k], is classified as
    [speech k] and is read when the clock shows [readings k]. *)
Definition frame_at (readings : nat -> float) (frames : nat -> bytearray)
  (speech : nat -> bool) (k : nat) : frame_input :=
  mkInput (Returns (frames k)) (Returns (speech k)) (readings k).

Definition arriving (readings : nat -> float) (frames : nat -> bytearray)
  (speech : nat -> bool) (first n : nat) : list frame_input :=
  map (frame_at readings frames speech) (seq first n).

(** The comparisons that decide the first scenario (speech on frame 1 only)
    for the clock origin [t0]: the reading at frame 2 is no sentinel, frames
    3 to 21 are below the threshold, and frame 22 or else frame 23 reaches
    it. *)
Definition below (readings : nat -> float) (j k : nat) : bool :=
  negb (MAX_SILENCE_BREAK <=? readings k - readings j).

Definition first_scenario_ok (t0 : Z) : bool :=
  negb (unset (arrival t0 2))
  && forallb (below (arrival t0) 2) (seq 3 19)
  && (MAX_SILENCE_BREAK <=? arrival t0 23 - arrival t0 2).

(** The same for the second scenario (speech on frames 1 and 17): frames 3
    to 16 are below the threshold after frame 2, frames 19 to 37 after frame
    18, and frame 39 at the latest reaches it. *)
Definition second_scenario_ok (t0 : Z) : bool :=
  negb (unset (arrival t0 2)) && negb (unset (arrival t0 18))
  && forallb (below (arrival t0) 2) (seq 3 14)
  && forallb (below (arrival t0) 18) (seq 19 19)
  && (MAX_SILENCE_BREAK <=? arrival t0 39 - arrival t0 18).

(** The state left by [refresh_observer], whatever the device globals. *)
Definition is_reset (g : globals) : Prop :=
  silence_start g = -1 /\ did_speak g = false.

(** [ins], run from [g] and [b], returns with globals [g'], buffer [b'] and
    the flags [fl] of its calls. *)
Definition reaches (ins : list frame_input) (g : globals) (b : bytearray)
  (g' : globals) (b' : bytearray) (fl : list bool) : Prop :=
  exists r, observe ins g b = Returns r
            /\ final r = g' /\ sentence r = b' /\ flags r = fl.

(** The invariant of the timing globals: [silence_start] is set only while
    [did_speak] holds and the most recent classified frame, [last], was
    non-speech. *)
Definition observer_inv (g : globals) (last : option bool) : Prop :=
  unset (silence_start g) = false ->
  did_speak g = true /\ last = Some false.

(** A call keeps its frame when it appends it: the read is of the fixed
    length and the classifier returns. *)
Definition kept (i : frame_input) : bool :=
  match classified i with Some _ => true | None => false end.

(** The gate on boundaries: a silence run is timed only after speech. *)
Definition gated (g : globals) : Prop :=
  unset (silence_start g) = false -> did_speak g = true.

(** ** Sample inputs *)

(** The three calls of [start_observer] all return. *)
Definition devices_start : start_calls :=
  mkStartCalls (Returns tt) (Returns tt) (Returns tt).

(** The globals after a successful [start_observer] in a fresh process. *)
Definition started : globals :=
  fst (start_observer devices_start (mkGlobals None None None 0 false false)).

(** The same observer in the middle of a silence run that began at [ss]. *)
Definition in_silence (ss : float) : globals := set_timing ss true started.

(** One frame of digital silence. *)
Definition zero_frame : bytearray := repeat Byte.x00 960.

Definition zero_frames (k : nat) : bytearray := zero_frame.

Definition speech_frame : frame_input := mkInput (Returns zero_frame) (Returns true) 0.

Definition silent_frame (now : float) : frame_input :=
  mkInput (Returns zero_frame) (Returns false) now.

Definition faulty_frame : frame_input :=
  mkInput (Returns zero_frame) (Raises "Error while processing frame") 0.

Definition short_frame : frame_input :=
  mkInput (Returns (repeat Byte.x00 100)) (Returns true) 0.

(** A short session: speech, then two silent frames a second apart. *)
Definition three_calls : list frame_input :=
  [speech_frame; silent_frame 1; silent_frame 2].

(** A session with a dropped read and a classifier error in it. *)
Definition mixed_calls : list frame_input :=
  [speech_frame; short_frame; faulty_frame; silent_frame 1].

(** The classifications of the two scenarios: speech on frame 1 only, and
    speech on frames 1 and 17 only. *)
Definition speech_on_first (k : nat) : bool := Nat.eqb k 1.

Definition speech_on_first_and_17th (k : nat) : bool :=
  Nat.eqb k 1 || Nat.eqb k 17.

(** The ways a call whose read returns can go, with what it returns. *)
Inductive step_case (i : frame_input) (g : globals) (b : bytearray)
  : observed -> Prop :=
| case_short frame :
    read i = Returns frame -> classified i = None ->
    step_case i g b (mkObserved g [] b false)
| case_vad_error frame e :
    read i = Returns frame -> full_frame frame = true ->
    vad_result i = Raises e -> classified i = None ->
    step_case i g b (mkObserved g [PrintVadError e] b false)
| case_speech frame o :
    read i = Returns frame -> classified i = Some true ->
    step_case i g b (mkObserved (set_timing (-1) true g) o (b ++ frame) false)
| case_waiting frame o :
    read i = Returns frame -> classified i = Some false ->
    unset (silence_start g) = true -> did_speak g = false ->
    step_case i g b (mkObserved g o (b ++ frame) false)
| case_silence_begins frame o :
    read i = Returns frame -> classified i = Some false ->
    unset (silence_start g) = true -> did_speak g = true ->
    step_case i g b (mkObserved (set_timing (clock i) true g) o (b ++ frame) false)
| case_silence_continues frame o :
    read i = Returns frame -> classified i = Some false ->
    unset (silence_start g) = false ->
    PrimFloat.leb MAX_SILENCE_BREAK (clock i - silence_start g) = false ->
    step_case i g b (mkObserved g o (b ++ frame) false)
| case_boundary frame o :
    read i = Returns frame -> classified i = Some false ->
    unset (silence_start g) = false ->
    PrimFloat.leb MAX_SILENCE_BREAK (clock i - silence_start g) = true ->
    step_case i g b (mkObserved (refresh_observer g) o (b ++ frame) true).

(** * The client, [mira.py] *)

Definition base_url : string := "http://localhost:8000".
Definition client_id : string := "Ankur's MacBook Air".
Definition version : string := "2.0.0".

(** ** Values decoded from JSON *)

(** A dict is the list of its items; a key occurs once. *)
Set Warnings "-register-all".
Inductive pyval :=
| PyNone
| PyBool (b : bool)
| PyInt (n : Z)
| PyFloat (x : float)
| PyStr (s : string)
| PyList (l : list pyval)
| PyDict (items : list (string * pyval)).
Set Warnings "register-all".

Fixpoint lookup (key : string) (items : list (string * pyval)) : option pyval :=
  match items with
  | [] => None
  | (k, v) :: rest => if String.eqb k key then Some v else lookup key rest
  end.

Definition type_name (v : pyval) : string :=
  match v with
  | PyNone => "NoneType"
  | PyBool _ => "bool"
  | PyInt _ => "int"
  | PyFloat _ => "float"
  | PyStr _ => "str"
  | PyList _ => "list"
  | PyDict _ => "dict"
  end.

(** [v.get(key)]: a dict answers [None] for a missing key; no other value
    decoded from JSON has the method, and the call raises [AttributeError]. *)
Definition get (v : pyval) (key : string) : outcome pyval :=
  match v with
  | PyDict items =>
      Returns (match lookup key items with Some x => x | None => PyNone end)
  | _ =>
      Raises ("'" ++ type_name v ++ "' object has no attribute 'get'")%string
  end.

(** [v != s] for a string [s]. *)
Definition differs_from (v : pyval) (s : string) : bool :=
  match v with
  | PyStr s' => negb (String.eqb s' s)
  | _ => true
  end.

(** [v is False]. *)
Definition is_False (v : pyval) : bool :=
  match v with
  | PyBool false => true
  | _ => false
  end.

(** ** Requests and responses *)

Inductive http_method := HttpGet | HttpPost | HttpPatch.

Record request := mkRequest {
  method : http_method;
  url : string;
  params : list (string * string);
  data : option bytearray;
  headers : list (string * string)
}.

(** A response, as far as the client looks at it: what
    [response.raise_for_status()] and [response.json()] do. *)
Record response := mkResponse {
  raise_for_status : outcome unit;
  json : outcome pyval
}.

(** ** The process *)

Inductive line :=
| Text (s : string)
| VersionMismatch (expected : string) (got : pyval)
| Observer (o : output).

Inductive handler := DisableMira | DisconnectFromServer.

(** The globals of [whisper_live], the buffer of the main loop, the requests
    issued and the lines printed so far (oldest first), and the functions
    registered with [atexit] (oldest first). *)
Record process := mkProcess {
  observer : globals;
  sentence_buf : bytearray;
  sent : list request;
  console : list line;
  exit_handlers : list handler
}.

Definition send (r : request) (p : process) : process :=
  mkProcess (observer p) (sentence_buf p) (sent p ++ [r]) (console p)
    (exit_handlers p).

Definition print (l : line) (p : process) : process :=
  mkProcess (observer p) (sentence_buf p) (sent p) (console p ++ [l])
    (exit_handlers p).

Definition set_observer (g : globals) (p : process) : process :=
  mkProcess g (sentence_buf p) (sent p) (console p) (exit_handlers p).

Definition set_sentence_buf (b : bytearray) (p : process) : process :=
  mkProcess (observer p) b (sent p) (console p) (exit_handlers p).

Definition atexit_register (h : handler) (p : process) : process :=
  mkProcess (observer p) (sentence_buf p) (sent p) (console p)
    (exit_handlers p ++ [h]).

(** How a call of the client ends: it returns, or [sys.exit] ends the
    process ([SystemExit] is no [Exception] and passes the handlers), or an
    exception leaves it. *)
Inductive ending (A : Type) : Type :=
| Finished (a : A)
| Exits (code : Z)
| Fails (e : string).

Arguments Finished {A} a.
Arguments Exits {A} code.
Arguments Fails {A} e.

(** ** Calls to the server *)

(** In each function [net] is what [requests.post] (or [patch], [get]) does:
    return a response or raise. *)

Definition register_request : request :=
  mkRequest HttpPost (base_url ++ "/register_client")%string
    [("client_id", client_id)] None [].

Definition connect_to_server (net : outcome response) (p : process)
  : process * ending unit :=
  let p := send register_request p in
  match (resp <- net ;;
         _ <- raise_for_status resp ;;
         body <- json resp ;;
         get body "version") with
  | Returns v =>
      if differs_from v version then
        (print (Text "Please update your client to match the server version.")
           (print (VersionMismatch version v) p),
         Exits 1%Z)
      else (print (Text "Connected to server") p, Finished tt)
  | Raises e =>
      (print (Text ("Error connecting to server: " ++ e)%string) p, Exits 1%Z)
  end.

Definition deregister_request : request :=
  mkRequest HttpPost (base_url ++ "/deregister_client")%string
    [("client_id", client_id)] None [].

Definition disconnect_from_server (net : outcome response) (p : process)
  : process * ending unit :=
  let p := send deregister_request p in
  match (resp <- net ;; raise_for_status resp) with
  | Returns _ => (print (Text "Disconnected from server.") p, Finished tt)
  | Raises e =>
      (print (Text ("Error disconnecting from server: " ++ e)%string) p,
       Finished tt)
  end.

Definition enable_request : request :=
  mkRequest HttpPatch (base_url ++ "/enable")%string [] None [].

Definition enable_mira (net : outcome response) (p : process)
  : process * ending unit :=
  let p := send enable_request p in
  match (resp <- net ;; raise_for_status resp) with
  | Returns _ => (print (Text "Mira enabled.") p, Finished tt)
  | Raises e =>
      (print (Text ("Error enabling Mira: " ++ e)%string) p, Finished tt)
  end.

Definition disable_request : request :=
  mkRequest HttpPatch (base_url ++ "/disable")%string [] None [].

Definition disable_mira (net : outcome response) (p : process)
  : process * ending unit :=
  let p := send disable_request p in
  match (resp <- net ;; raise_for_status resp) with
  | Returns _ => (print (Text "Mira disabled.") p, Finished tt)
  | Raises e =>
      (print (Text ("Error disabling Mira: " ++ e)%string) p, Finished tt)
  end.

Definition interaction_request (body : bytearray) : request :=
  mkRequest HttpPost (base_url ++ "/interactions/register")%string []
    (Some body) [("Content-Type", "application/octet-stream")].

(** [asyncio.run(process_interaction(sentence_buf))]: the coroutine awaits
    nothing and is run to its end.  Its value is the decoded response, or
    [None]. *)
Definition process_interaction (net : outcome response) (buffer : bytearray)
  (p : process) : process * ending pyval :=
  let p := send (interaction_request buffer) p in
  match (resp <- net ;; _ <- raise_for_status resp ;; json resp) with
  | Returns v => (p, Finished v)
  | Raises e =>
      (print (Text ("Error processing interaction: " ++ e)%string) p,
       Finished PyNone)
  end.

Definition interrupted : line :=
  Text (String (Ascii.ascii_of_nat 10) "Mira interrupted.").

(** [signal_handler], installed for SIGINT.  When the signal arrives, and in
    which call, is not part of the embedding: no function below calls it. *)
Definition signal_handler (p : process) : process * ending unit :=
  (print interrupted p, Exits 0%Z).

(** ** The main loop *)

(** What the environment answers during one iteration of [while True], each
    answer used if the iteration reaches the call. *)
Record iteration_input := mkIteration {
  poll : outcome response;
  kill : device_calls;
  starting : start_calls;
  frame : frame_input;
  upload : outcome response
}.

Definition poll_request : request :=
  mkRequest HttpGet (base_url ++ "/")%string [] None [].

(** An exception raised by the observer, seen from the client. *)
Definition of_outcome {A : Type} (c : outcome A) : ending A :=
  match c with
  | Returns a => Finished a
  | Raises e => Fails e
  end.

(** [if not is_observer_running(): start_observer(); sentence_buf =
    bytearray()]. *)
Definition ensure_started (d : start_calls) (p : process)
  : process * ending unit :=
  if negb (is_observer_running (observer p)) then
    match start_observer d (observer p) with
    | (g, Raises e) => (set_observer g p, Fails e)
    | (g, Returns _) => (set_sentence_buf [] (set_observer g p), Finished tt)
    end
  else (p, Finished tt).

(** [sentence_buf, is_sentence_complete = silent_observer(sentence_buf)]. *)
Definition observe_frame (i : frame_input) (p : process)
  : process * ending bool :=
  match silent_observer i (observer p) (sentence_buf p) with
  | Raises e => (p, Fails e)
  | Returns o =>
      (mkProcess (st o) (buf o) (sent p) (console p ++ map Observer (out o))
         (exit_handlers p),
       Finished (complete o))
  end.

(** One iteration of [while True]; [Fails] is an exception on its way to the
    handlers of the [try] around the loop. *)
Definition iteration (inp : iteration_input) (p : process)
  : process * ending unit :=
  let p := send poll_request p in
  match (resp <- poll inp ;; status <- json resp ;; get status "enabled") with
  | Raises e => (p, Fails e)
  | Returns flag =>
      if is_False flag then
        if is_observer_running (observer p) then
          match kill_observer (kill inp) (observer p) with
          | (g, Raises e) => (set_observer g p, Fails e)
          | (g, Returns _) =>
              (set_sentence_buf [] (set_observer g p), Finished tt)
          end
        else (p, Finished tt)
      else
        match ensure_started (starting inp) p with
        | (p, Fails e) => (p, Fails e)
        | (p, Exits code) => (p, Exits code)
        | (p, Finished _) =>
            match observe_frame (frame inp) p with
            | (p, Fails e) => (p, Fails e)
            | (p, Exits code) => (p, Exits code)
            | (p, Finished is_sentence_complete) =>
                if negb is_sentence_complete then (p, Finished tt)
                else
                  match process_interaction (upload inp) (sentence_buf p) p with
                  | (p, Fails e) => (p, Fails e)
                  | (p, Exits code) => (p, Exits code)
                  | (p, Finished _) => (p, Finished tt)
                  end
            end
        end
  end.

(** The loop over the iterations of a run: the exit status, or [None] while
    the loop is still running.  With [signal_handler] installed SIGINT raises
    no [KeyboardInterrupt], and the handler of the [try] for it is never
    entered. *)
Fixpoint loop (inps : list iteration_input) (p : process) : process * option Z :=
  match inps with
  | [] => (p, None)
  | inp :: rest =>
      match iteration inp p with
      | (p, Finished _) => loop rest p
      | (p, Exits code) => (p, Some code)
      | (p, Fails e) =>
          (print (Text ("Runtime error: " ++ e)%string) p, Some 1%Z)
      end
  end.

(** ** The program *)

Record program_input := mkProgram {
  registration : outcome response;
  enabling : outcome response;
  iterations : list iteration_input;
  deregistration : outcome response;
  disabling : outcome response
}.

Definition run_handler (inp : program_input) (h : handler) (p : process)
  : process :=
  match h with
  | DisableMira => fst (disable_mira (disabling inp) p)
  | DisconnectFromServer => fst (disconnect_from_server (deregistration inp) p)
  end.

(** At exit the registered functions run, last registered first. *)
Definition at_exit (inp : program_input) (p : process) : process :=
  fold_left (fun p h => run_handler inp h p) (rev (exit_handlers p)) p.

(** The globals of a fresh process: [enabled = False], the rest unbound. *)
Definition fresh_globals : globals := mkGlobals None None None 0 false false.

(** The program up to the loop: the registrations with [atexit],
    [connect_to_server()], [enable_mira()]. *)
Definition startup (inp : program_input) : process * ending unit :=
  let p := mkProcess fresh_globals [] [] [] [] in
  let p := atexit_register DisableMira p in
  let p := atexit_register DisconnectFromServer p in
  match connect_to_server (registration inp) p with
  | (p, Finished _) => enable_mira (enabling inp) p
  | other => other
  end.

(** The program: the exit status with the process as it ends, or [None]
    with the process as it is when the iterations are used up.  An exception
    that nothing handles ends the process with status 1. *)
Definition main (inp : program_input) : process * option Z :=
  match startup inp with
  | (p, Finished _) =>
      match loop (iterations inp) p with
      | (p, Some code) => (at_exit inp p, Some code)
      | (p, None) => (p, None)
      end
  | (p, Exits code) => (at_exit inp p, Some code)
  | (p, Fails e) => (at_exit inp p, Some 1%Z)
  end.

(** ** What the server answers *)

(** The registration is accepted: the request returns, the status is no
    error, the body is a JSON object and its ["version"] is the client's. *)
Definition handshake_ok (net : outcome response) : Prop :=
  exists resp items,
    net = Returns resp
    /\ raise_for_status resp = Returns tt
    /\ json resp = Returns (PyDict items)
    /\ lookup "version" items = Some (PyStr version).

(** [requests.get(url=f"{base_url}/").json().get("enabled")]. *)
Definition poll_flag (inp : iteration_input) : outcome pyval :=
  resp <- poll inp ;; status <- json resp ;; get status "enabled".

(** The calls an iteration depends on all return: the poll, then the device
    calls of [kill_observer] or of [start_observer] if they are reached, and
    the read of the frame. *)
Definition iteration_ok (inp : iteration_input) (p : process) : Prop :=
  exists flag,
    poll_flag inp = Returns flag
    /\ if is_False flag then
         is_observer_running (observer p) = true ->
         snd (kill_observer (kill inp) (observer p)) = Returns tt
       else
         (is_observer_running (observer p) = false ->
          snd (start_observer (starting inp) (observer p)) = Returns tt)
         /\ exists bytes, read (frame inp) = Returns bytes.

(** The bodies of the uploads among some requests. *)
Definition uploads (rs : list request) : list bytearray :=
  flat_map (fun r =>
              if String.eqb (url r) (base_url ++ "/interactions/register")
              then match data r with Some body => [body] | None => [] end
              else []) rs.

(** Each body extends the one before it, the first one [start]. *)
Fixpoint growing (start : bytearray) (bodies : list bytearray) : Prop :=
  match bodies with
  | [] => True
  | body :: rest => (exists more, body = start ++ more) /\ growing body rest
  end.

(** The server keeps the client enabled throughout [inps]. *)
Definition kept_enabled (inps : list iteration_input) : Prop :=
  Forall (fun inp => exists flag,
              poll_flag inp = Returns flag /\ is_False flag = false) inps.

(** ** Sample answers *)

Definition ok_response (body : pyval) : response :=
  mkResponse (Returns tt) (Returns body).

Definition version_reply : pyval := PyDict [("version", PyStr "2.0.0")].
Definition old_version_reply : pyval := PyDict [("version", PyStr "1.9.0")].
Definition enabled_status : pyval := PyDict [("enabled", PyBool true)].
Definition disabled_status : pyval := PyDict [("enabled", PyBool false)].
Definition empty_status : pyval := PyDict [].

Definition devices_fine : device_calls :=
  mkDeviceCalls (Returns tt) (Returns tt) (Returns tt).

(** An iteration with the given poll and frame, in which every other call
    returns. *)
Definition sample_iteration (status : pyval) (i : frame_input)
  : iteration_input :=
  mkIteration (Returns (ok_response status)) devices_fine devices_start i
    (Returns (ok_response PyNone)).

(** A process whose observer runs, in a silence run begun at [ss], with one
    byte in the buffer. *)
Definition listening (ss : float) : process :=
  mkProcess (in_silence ss) [Byte.x01] [] [] [DisableMira; DisconnectFromServer].

(** An iteration whose poll cannot reach the server. *)
Definition failing_poll : iteration_input :=
  mkIteration (Raises "Connection refused") devices_fine devices_start
    speech_frame (Returns (ok_response PyNone)).

Definition sample_program (reply : pyval) (evs : list iteration_input)
  : program_input :=
  mkProgram (Returns (ok_response reply)) (Returns (ok_response PyNone)) evs
    (Returns (ok_response PyNone)) (Returns (ok_response PyNone)).

(** Two iterations while listening: a silent frame that closes the sentence,
    then a speech frame. *)
Definition two_iterations : list iteration_input :=
  [sample_iteration enabled_status (silent_frame 1);
   sample_iteration enabled_status speech_frame].

(** * Properties *)

(** ** The step, case by case *)

Section Step.

Variables (i : frame_input) (g : globals) (sentence_buf : bytearray).
Variable frame : bytearray.
Hypothesis Hread : read i = Returns frame.

Lemma step_short :
  full_frame frame = false ->
  silent_observer i g sentence_buf
  = Returns (mkObserved g [] sentence_buf false).
Proof.
  intros Hlen. unfold silent_observer. rewrite Hread. cbn [bind].
  fold (full_frame frame). rewrite Hlen. reflexivity.
Qed.

Hypothesis Hfull : full_frame frame = true.

Lemma step_vad_error (e : string) :
  vad_result i = Raises e ->
  silent_observer i g sentence_buf
  = Returns (mkObserved g [PrintVadError e] sentence_buf false).
Proof.
  intros Hvad. unfold silent_observer. rewrite Hread. cbn [bind].
  fold (full_frame frame). rewrite Hfull, Hvad. reflexivity.
Qed.

Lemma step_speech :
  vad_result i = Returns true ->
  silent_observer i g sentence_buf
  = Returns (mkObserved (set_timing (-1) true g) [PrintStatus Speaking]
               (sentence_buf ++ frame) false).
Proof.
  intros Hvad. unfold silent_observer. rewrite Hread. cbn [bind].
  fold (full_frame frame). rewrite Hfull, Hvad. reflexivity.
Qed.

Hypothesis Hsilent : vad_result i = Returns false.

Lemma step_waiting :
  unset (silence_start g) = true -> did_speak g = false ->
  silent_observer i g sentence_buf
  = Returns (mkObserved g [PrintStatus WaitingForSpeech]
               (sentence_buf ++ frame) false).
Proof.
  intros Hu Hd. unfold silent_observer. rewrite Hread. cbn [bind].
  fold (full_frame frame). rewrite Hfull, Hsilent. cbn [negb].
  rewrite Hu, Hd. reflexivity.
Qed.

Lemma step_silence_begins :
  unset (silence_start g) = true -> did_speak g = true ->
  silent_observer i g sentence_buf
  = Returns (mkObserved (set_timing (clock i) true g)
               [PrintStatus (Silence (clock i - 0))]
               (sentence_buf ++ frame) false).
Proof.
  intros Hu Hd. unfold silent_observer. rewrite Hread. cbn [bind].
  fold (full_frame frame). rewrite Hfull, Hsilent. cbn [negb].
  rewrite Hu, Hd. reflexivity.
Qed.

Lemma step_silence_continues :
  unset (silence_start g) = false ->
  PrimFloat.leb MAX_SILENCE_BREAK (clock i - silence_start g) = false ->
  exists o,
    silent_observer i g sentence_buf
    = Returns (mkObserved g o (sentence_buf ++ frame) false).
Proof.
  intros Hu Hlt. unfold silent_observer. rewrite Hread. cbn [bind].
  fold (full_frame frame). rewrite Hfull, Hsilent. cbn [negb].
  rewrite Hu, Hlt. eexists. reflexivity.
Qed.

Lemma step_boundary :
  unset (silence_start g) = false ->
  PrimFloat.leb MAX_SILENCE_BREAK (clock i - silence_start g) = true ->
  exists o,
    silent_observer i g sentence_buf
    = Returns (mkObserved (refresh_observer g) o (sentence_buf ++ frame) true).
Proof.
  intros Hu Hge. unfold silent_observer. rewrite Hread. cbn [bind].
  fold (full_frame frame). rewrite Hfull, Hsilent. cbn [negb].
  rewrite Hu, Hge. eexists. reflexivity.
Qed.

End Step.

Lemma step_cases (i : frame_input) (g : globals) (b : bytearray) (o : observed) :
  silent_observer i g b = Returns o -> step_case i g b o.
Proof.
  unfold silent_observer. destruct (read i) as [frame|e] eqn:Hread; cbn [bind];
    [|discriminate].
  fold (full_frame frame).
  destruct (full_frame frame) eqn:Hfull; cbn [negb].
  - destruct (vad_result i) as [[|]|e] eqn:Hvad.
    + intros [= <-]. eapply case_speech; eauto.
      unfold classified. now rewrite Hread, Hvad, Hfull.
    + assert (Hc : classified i = Some false)
        by (unfold classified; now rewrite Hread, Hvad, Hfull).
      destruct (unset (silence_start g)) eqn:Hu.
      * destruct (did_speak g) eqn:Hd; intros [= <-].
        -- eapply case_silence_begins; eauto.
        -- eapply case_waiting; eauto.
      * destruct (PrimFloat.leb MAX_SILENCE_BREAK (clock i - silence_start g)) eqn:Hq;
          intros [= <-].
        -- eapply case_boundary; eauto.
        -- eapply case_silence_continues; eauto.
    + intros [= <-]. eapply case_vad_error; eauto.
      unfold classified. now rewrite Hread, Hvad.
  - intros [= <-]. eapply case_short; eauto.
    unfold classified. rewrite Hread, Hfull. now destruct (vad_result i).
Qed.

Lemma step_returns (i : frame_input) (g : globals) (b : bytearray) frame :
  read i = Returns frame -> exists o, silent_observer i g b = Returns o.
Proof.
  intros Hread. unfold silent_observer. rewrite Hread. cbn [bind].
  destruct (negb _); [eexists; reflexivity|].
  destruct (vad_result i) as [[|]|e]; try (eexists; reflexivity).
  destruct (unset _); [destruct (did_speak g)|destruct (PrimFloat.leb _ _)];
    eexists; reflexivity.
Qed.

Lemma step_buf (i : frame_input) (g : globals) (b : bytearray) (o : observed) :
  silent_observer i g b = Returns o -> buf o = b ++ appended i.
Proof.
  intros H. apply step_cases in H. unfold appended.
  destruct H as [f Hr Hc|f e Hr _ _ Hc|f o Hr Hc|f o Hr Hc|f o Hr Hc|f o Hr Hc|f o Hr Hc];
    rewrite Hr, Hc; cbn [buf]; now rewrite ?app_nil_r.
Qed.

(** ** Runs *)

Lemma observe_cons_inv (i : frame_input) (rest : list frame_input)
  (g : globals) (b : bytearray) (r : run) :
  observe (i :: rest) g b = Returns r ->
  exists o rr,
    silent_observer i g b = Returns o
    /\ observe rest (st o) (buf o) = Returns rr
    /\ r = mkRun (final rr) (sentence rr) (complete o :: flags rr)
             (out o ++ printed rr).
Proof.
  cbn [observe]. destruct (silent_observer i g b) as [o|e] eqn:Ho; cbn [bind];
    [|discriminate].
  destruct (observe rest (st o) (buf o)) as [rr|e] eqn:Hrr; cbn [bind];
    [|discriminate].
  intros [= <-]. now exists o, rr.
Qed.

Lemma reaches_nil (g : globals) (b : bytearray) : reaches [] g b g b [].
Proof. eexists. cbn. repeat split. Qed.

Lemma reaches_cons (i : frame_input) (rest : list frame_input)
  (g g' : globals) (b b' : bytearray) (o : observed) (fl : list bool) :
  silent_observer i g b = Returns o ->
  reaches rest (st o) (buf o) g' b' fl ->
  reaches (i :: rest) g b g' b' (complete o :: fl).
Proof.
  intros Ho (rr & Hrr & <- & <- & <-). eexists. cbn [observe].
  rewrite Ho. cbn [bind]. rewrite Hrr. cbn [bind]. repeat split.
Qed.

Lemma reaches_step (i : frame_input) (rest : list frame_input)
  (g g1 g' : globals) (b b1 b' : bytearray) (o : list output) (c : bool)
  (fl : list bool) :
  silent_observer i g b = Returns (mkObserved g1 o b1 c) ->
  reaches rest g1 b1 g' b' fl ->
  reaches (i :: rest) g b g' b' (c :: fl).
Proof.
  intros Ho Hrest.
  change (c :: fl) with (complete (mkObserved g1 o b1 c) :: fl).
  eapply reaches_cons; eauto.
Qed.

Lemma reaches_cons_inv (i : frame_input) (rest : list frame_input)
  (g g' : globals) (b b' : bytearray) (fl : list bool) :
  reaches (i :: rest) g b g' b' fl ->
  exists o fl',
    silent_observer i g b = Returns o
    /\ reaches rest (st o) (buf o) g' b' fl'
    /\ fl = complete o :: fl'.
Proof.
  intros (r & Hr & <- & <- & <-).
  apply observe_cons_inv in Hr as (o & rr & Ho & Hrr & ->).
  exists o, (flags rr). repeat split; auto. now exists rr.
Qed.

Lemma reaches_app (l1 l2 : list frame_input) (g g1 g2 : globals)
  (b b1 b2 : bytearray) (f1 f2 : list bool) :
  reaches l1 g b g1 b1 f1 ->
  reaches l2 g1 b1 g2 b2 f2 ->
  reaches (l1 ++ l2) g b g2 b2 (f1 ++ f2).
Proof.
  revert g b f1. induction l1 as [|i l1 IH]; intros g b f1 H1 H2.
  - destruct H1 as (r & [= <-] & <- & <- & <-). exact H2.
  - apply reaches_cons_inv in H1 as (o & fl' & Ho & Hrest & ->).
    cbn [app]. eapply reaches_cons; eauto.
Qed.

Lemma reaches_app_inv (l1 l2 : list frame_input) (g g2 : globals)
  (b b2 : bytearray) (fl : list bool) :
  reaches (l1 ++ l2) g b g2 b2 fl ->
  exists g1 b1 f1 f2,
    reaches l1 g b g1 b1 f1 /\ reaches l2 g1 b1 g2 b2 f2 /\ fl = f1 ++ f2.
Proof.
  revert g b fl. induction l1 as [|i l1 IH]; intros g b fl H.
  - exists g, b, [], fl. repeat split; auto using reaches_nil.
  - cbn [app] in H. apply reaches_cons_inv in H as (o & fl' & Ho & Hrest & ->).
    apply IH in Hrest as (g1 & b1 & f1 & f2 & H1 & H2 & ->).
    exists g1, b1, (complete o :: f1), f2. repeat split; auto.
    eapply reaches_cons; eauto.
Qed.

Lemma reaches_flags_length (ins : list frame_input) (g g' : globals)
  (b b' : bytearray) (fl : list bool) :
  reaches ins g b g' b' fl -> List.length fl = List.length ins.
Proof.
  revert g b fl. induction ins as [|i ins IH]; intros g b fl H.
  - destruct H as (r & [= <-] & _ & _ & <-). reflexivity.
  - apply reaches_cons_inv in H as (o & fl' & _ & Hrest & ->).
    cbn [List.length]. f_equal. eauto.
Qed.

Lemma reaches_sentence (ins : list frame_input) (g g' : globals)
  (b b' : bytearray) (fl : list bool) :
  reaches ins g b g' b' fl -> b' = b ++ List.concat (map appended ins).
Proof.
  revert g b fl. induction ins as [|i ins IH]; intros g b fl H.
  - destruct H as (r & [= <-] & _ & <- & _). cbn. now rewrite app_nil_r.
  - apply reaches_cons_inv in H as (o & fl' & Ho & Hrest & ->).
    apply IH in Hrest. apply step_buf in Ho. rewrite Hrest, Ho.
    cbn [map List.concat]. now rewrite app_assoc.
Qed.

(** A run returns as soon as every read does. *)
Lemma observe_returns (ins : list frame_input) (g : globals) (b : bytearray) :
  Forall (fun i => exists frame, read i = Returns frame) ins ->
  exists r, observe ins g b = Returns r.
Proof.
  intros H. revert g b. induction H as [|i ins [frame Hi] _ IH]; intros g b.
  - eexists. reflexivity.
  - destruct (step_returns i g b Hi) as [o Ho].
    destruct (IH (st o) (buf o)) as [rr Hrr].
    eexists. cbn [observe]. rewrite Ho. cbn [bind]. rewrite Hrr. reflexivity.
Qed.

Lemma observe_reaches (ins : list frame_input) (g : globals) (b : bytearray)
  (r : run) :
  observe ins g b = Returns r ->
  reaches ins g b (final r) (sentence r) (flags r).
Proof. intros H. now exists r. Qed.

(** ** The invariant of the timing globals *)

Lemma unset_minus_one : unset (-1) = true.
Proof. reflexivity. Qed.

Lemma reset_inv (g : globals) (last : option bool) :
  is_reset g -> observer_inv g last.
Proof.
  intros [Hs _] Hu. rewrite Hs, unset_minus_one in Hu. discriminate.
Qed.

Lemma step_inv (i : frame_input) (g : globals) (b : bytearray) (o : observed)
  (last : option bool) :
  observer_inv g last ->
  silent_observer i g b = Returns o ->
  observer_inv (st o) (last_after i last).
Proof.
  intros Hinv Ho. apply step_cases in Ho. unfold observer_inv, last_after in *.
  destruct Ho as [f Hr Hc|f e Hr _ _ Hc|f o Hr Hc|f o Hr Hc Hu|f o Hr Hc Hu Hd
                 |f o Hr Hc Hu Hq|f o Hr Hc Hu Hq];
    rewrite Hc; cbn [st]; auto; intros Hu';
    try discriminate Hu'; try congruence;
    split; solve [reflexivity | apply Hinv; assumption].
Qed.

Lemma run_inv (ins : list frame_input) (g g' : globals) (b b' : bytearray)
  (fl : list bool) (last : option bool) :
  observer_inv g last ->
  reaches ins g b g' b' fl ->
  observer_inv g' (last_classified ins last).
Proof.
  revert g b fl last. induction ins as [|i ins IH]; intros g b fl last Hinv H.
  - destruct H as (r & [= <-] & <- & _ & _). exact Hinv.
  - apply reaches_cons_inv in H as (o & fl' & Ho & Hrest & ->).
    cbn [last_classified]. eapply IH; [|exact Hrest].
    eapply step_inv; eauto.
Qed.

(** ** Single calls *)

(** C5: a read that returns fewer bytes than [FRAME_BYTES] makes
    [silent_observer] return at once: the flag is [False], the buffer is the
    one passed in (the frame is not appended), nothing is printed, and the
    globals, [did_speak] and [silence_start] among them, are unchanged. *)
Theorem short_read_is_dropped (i : frame_input) (g : globals)
  (sentence_buf frame : bytearray) :
  read i = Returns frame ->
  (Z.of_nat (List.length frame) < FRAME_BYTES)%Z ->
  silent_observer i g sentence_buf
  = Returns (mkObserved g [] sentence_buf false).
Proof.
  intros Hread Hlen. apply step_short with (frame := frame); auto.
  unfold full_frame. apply Z.eqb_neq. lia.
Qed.

Lemma short_read_is_dropped_witness :
  read short_frame = Returns (repeat Byte.x00 100)
  /\ (Z.of_nat (List.length (repeat Byte.x00 100)) < FRAME_BYTES)%Z
  /\ silent_observer short_frame (in_silence 5) [Byte.x01]
     = Returns (mkObserved (in_silence 5) [] [Byte.x01] false).
Proof.
  split; [reflexivity|]. split; [reflexivity|].
  apply (@short_read_is_dropped short_frame (in_silence 5) [Byte.x01]
           (repeat Byte.x00 100)); reflexivity.
Defined.

(** C3: when the classifier raises, [silent_observer] returns (the exception
    does not leave the call) with the flag [False] and the buffer it was
    given, to which no byte has been appended. *)
Theorem classifier_error_keeps_buffer (i : frame_input) (g : globals)
  (sentence_buf frame : bytearray) (e : string) :
  read i = Returns frame ->
  vad_result i = Raises e ->
  exists o,
    silent_observer i g sentence_buf = Returns o
    /\ complete o = false
    /\ buf o = sentence_buf.
Proof.
  intros Hread Hvad. destruct (full_frame frame) eqn:Hfull.
  - eexists. split; [eapply step_vad_error; eauto|].
    split; reflexivity.
  - eexists. split; [eapply step_short; eauto|].
    split; reflexivity.
Qed.

Lemma classifier_error_keeps_buffer_witness :
  read faulty_frame = Returns zero_frame
  /\ vad_result faulty_frame = Raises "Error while processing frame"
  /\ exists o,
       silent_observer faulty_frame (in_silence 5) [Byte.x01] = Returns o
       /\ complete o = false
       /\ buf o = [Byte.x01].
Proof.
  split; [reflexivity|]. split; [reflexivity|].
  apply (@classifier_error_keeps_buffer faulty_frame (in_silence 5)
           [Byte.x01] zero_frame "Error while processing frame"); reflexivity.
Defined.

(** C2, as the code has it: when the classifier raises on a frame of the
    fixed length, [silent_observer] prints the error and returns normally with
    the flag [False]; the globals ([silence_start], [did_speak]) are
    unchanged, and the buffer is unchanged too: the frame is not appended. *)
Theorem classifier_error_is_logged_and_frame_dropped (i : frame_input)
  (g : globals) (sentence_buf frame : bytearray) (e : string) :
  read i = Returns frame ->
  full_frame frame = true ->
  vad_result i = Raises e ->
  silent_observer i g sentence_buf
  = Returns (mkObserved g [PrintVadError e] sentence_buf false).
Proof. intros. now apply step_vad_error with (frame := frame). Qed.

Lemma classifier_error_is_logged_and_frame_dropped_witness :
  read faulty_frame = Returns zero_frame
  /\ full_frame zero_frame = true
  /\ vad_result faulty_frame = Raises "Error while processing frame"
  /\ silent_observer faulty_frame (in_silence 5) [Byte.x01]
     = Returns (mkObserved (in_silence 5)
                  [PrintVadError "Error while processing frame"]
                  [Byte.x01] false).
Proof.
  split; [reflexivity|]. split; [reflexivity|]. split; [reflexivity|].
  apply (@classifier_error_is_logged_and_frame_dropped faulty_frame
           (in_silence 5) [Byte.x01] zero_frame
           "Error while processing frame"); reflexivity.
Defined.

(** C2, as stated, fails: on a classifier error the frame is not appended.
    With the one-byte buffer [[x01]] and a full frame on which the classifier
    raises, the returned buffer is still [[x01]], not [[x01] ++ frame]. *)
Lemma classifier_error_frame_not_appended :
  exists o,
    silent_observer faulty_frame (in_silence 5) [Byte.x01] = Returns o
    /\ buf o = [Byte.x01]
    /\ buf o <> [Byte.x01] ++ zero_frame.
Proof.
  eexists. split; [reflexivity|]. split; [reflexivity|].
  cbn [buf]. intros H. apply (f_equal (@List.length _)) in H.
  vm_compute in H. discriminate H.
Qed.

Lemma start_observer_returns (d : start_calls) (g0 g1 : globals) :
  start_observer d g0 = (g1, Returns tt) ->
  silence_start g1 = -1 /\ did_speak g1 = false /\ enabled g1 = true.
Proof.
  unfold start_observer.
  destruct (vad_created d); [|discriminate].
  destruct (pyaudio_created d); [|discriminate].
  destruct (stream_opened d); [|discriminate].
  intros [= <-]. repeat split.
Qed.

(** C7: a call that declares a boundary leaves the globals as
    [refresh_observer] does: [silence_start] is [-1] and [did_speak] is
    [False], the values these two have right after a successful
    [start_observer]; a further [refresh_observer] changes nothing. *)
Theorem boundary_leaves_start_state (i : frame_input) (g g0 g1 : globals)
  (b : bytearray) (o : observed) (opened : start_calls) :
  silent_observer i g b = Returns o ->
  complete o = true ->
  start_observer opened g0 = (g1, Returns tt) ->
  st o = refresh_observer g
  /\ silence_start (st o) = -1
  /\ did_speak (st o) = false
  /\ silence_start (st o) = silence_start g1
  /\ did_speak (st o) = did_speak g1
  /\ refresh_observer (st o) = st o.
Proof.
  intros Ho Hc Hstart. apply step_cases in Ho.
  assert (Hg1 : silence_start g1 = -1 /\ did_speak g1 = false).
  { apply start_observer_returns in Hstart as (H1 & H2 & _). now split. }
  destruct Hg1 as [-> ->].
  destruct Ho; cbn [complete] in Hc; try discriminate Hc.
  cbn [st]. repeat split.
Qed.

Lemma boundary_leaves_start_state_witness :
  let o := mkObserved (refresh_observer (in_silence 0))
             [PrintStatus (Silence (1 - 0))] zero_frame true in
  silent_observer (silent_frame 1) (in_silence 0) [] = Returns o
  /\ st o = refresh_observer (in_silence 0)
  /\ silence_start (st o) = -1
  /\ did_speak (st o) = false
  /\ silence_start (st o) = silence_start started
  /\ did_speak (st o) = did_speak started
  /\ refresh_observer (st o) = st o.
Proof.
  intros o. split; [reflexivity|].
  apply (@boundary_leaves_start_state (silent_frame 1) (in_silence 0)
           (mkGlobals None None None 0 false false) started [] o devices_start);
    reflexivity.
Defined.

(** C9: the invariant of the timing globals ([silence_start] is set only
    while [did_speak] is true and the most recent classified frame was
    non-speech) holds after a successful [start_observer], is preserved by
    every call of [silent_observer] that returns and by [refresh_observer],
    and a call whose frame is classified as speech leaves [silence_start]
    unset. *)
Theorem timing_invariant :
  (forall opened g0 g1 last,
      start_observer opened g0 = (g1, Returns tt) -> observer_inv g1 last)
  /\ (forall i g b o last,
        observer_inv g last ->
        silent_observer i g b = Returns o ->
        observer_inv (st o) (last_after i last))
  /\ (forall g last, observer_inv (refresh_observer g) last)
  /\ (forall i g b o,
        classified i = Some true ->
        silent_observer i g b = Returns o ->
        unset (silence_start (st o)) = true).
Proof.
  split; [|split; [|split]].
  - intros opened g0 g1 last Hstart. apply reset_inv.
    apply start_observer_returns in Hstart as (H1 & H2 & _). now split.
  - intros i g b o last Hinv Ho. eapply step_inv; eauto.
  - intros g last. apply reset_inv. split; reflexivity.
  - intros i g b o Hc Ho. apply step_cases in Ho.
    destruct Ho; try congruence. reflexivity.
Qed.

Lemma timing_invariant_witness :
  observer_inv started None
  /\ (observer_inv (in_silence 5) (Some false) ->
      observer_inv (in_silence 5)
        (last_after (silent_frame 5.5) (Some false)))
  /\ observer_inv (refresh_observer (in_silence 5)) (Some false)
  /\ unset (silence_start (set_timing (-1) true (in_silence 5))) = true.
Proof.
  destruct timing_invariant as (Hstart & Hstep & Hrefresh & Hspeech).
  split; [apply (Hstart devices_start (mkGlobals None None None 0 false false));
          reflexivity|].
  split; [intros Hinv;
          apply (Hstep (silent_frame 5.5) (in_silence 5) []
                   (mkObserved (in_silence 5)
                      [PrintStatus (Silence (5.5 - 5))]
                      zero_frame false) (Some false) Hinv);
          reflexivity|].
  split; [apply Hrefresh|].
  apply (Hspeech speech_frame (in_silence 5) []
           (mkObserved (set_timing (-1) true (in_silence 5))
              [PrintStatus Speaking] zero_frame false)); reflexivity.
Defined.

(** ** The gate on boundaries *)

Lemma reset_gated (g : globals) : is_reset g -> gated g.
Proof.
  intros [Hs _] Hu. rewrite Hs, unset_minus_one in Hu. discriminate.
Qed.

Lemma step_gated (i : frame_input) (g : globals) (b : bytearray) (o : observed) :
  gated g -> silent_observer i g b = Returns o -> gated (st o).
Proof.
  intros Hg Ho. apply step_cases in Ho. unfold gated in *.
  destruct Ho; cbn [st]; auto; intros Hu'; try discriminate Hu'; reflexivity.
Qed.

Lemma step_boundary_gated (i : frame_input) (g : globals) (b : bytearray)
  (o : observed) :
  gated g -> silent_observer i g b = Returns o -> complete o = true ->
  did_speak g = true.
Proof.
  intros Hg Ho Hc. apply step_cases in Ho.
  destruct Ho; cbn [complete] in Hc; try discriminate Hc. auto.
Qed.

Lemma step_heard (i : frame_input) (g : globals) (b : bytearray) (o : observed) :
  silent_observer i g b = Returns o ->
  did_speak (st o) = true ->
  complete o = false /\ (classified i = Some true \/ did_speak g = true).
Proof.
  intros Ho Hd. apply step_cases in Ho.
  destruct Ho; cbn [st complete] in *; try discriminate Hd; auto.
Qed.

Lemma boundary_after_speech (ins : list frame_input) :
  forall (g g' : globals) (b b' : bytearray) (fl : list bool),
    gated g ->
    reaches ins g b g' b' fl ->
    forall n, nth_error fl n = Some true ->
      (exists m s,
          (m < n)%nat /\ nth_error ins m = Some s /\ classified s = Some true
          /\ forall j, (m <= j < n)%nat -> nth_error fl j = Some false)
      \/ (did_speak g = true
          /\ forall j, (j < n)%nat -> nth_error fl j = Some false).
Proof.
  induction ins as [|i ins IH]; intros g g' b b' fl Hg H n Hn.
  - destruct H as (r & [= <-] & _ & _ & <-). destruct n; discriminate Hn.
  - apply reaches_cons_inv in H as (o & fl' & Ho & Hrest & ->).
    destruct n as [|n]; cbn [nth_error] in Hn.
    + injection Hn as Hc. right. split; [|intros j Hj; lia].
      eapply step_boundary_gated; eauto.
    + assert (Hg' : gated (st o)) by (eapply step_gated; eauto).
      destruct (IH _ _ _ _ _ Hg' Hrest n Hn)
        as [(m & s & Hm & Hs & Hcs & Hno)|[Hd Hno]].
      * left. exists (S m), s. repeat split; auto; try lia.
        intros [|j] Hj; [lia|]. cbn [nth_error]. apply Hno. lia.
      * destruct (step_heard _ _ _ Ho Hd) as [Hc [Hsp|Hdg]].
        -- left. exists 0%nat, i. repeat split; auto; try lia.
           intros [|j] Hj; cbn [nth_error]; [now rewrite Hc|apply Hno; lia].
        -- right. split; [assumption|].
           intros [|j] Hj; cbn [nth_error]; [now rewrite Hc|apply Hno; lia].
Qed.

Lemma waiting_forever (ins : list frame_input) :
  forall (g g' : globals) (b b' : bytearray) (fl : list bool),
    unset (silence_start g) = true -> did_speak g = false ->
    (forall s, In s ins -> classified s <> Some true) ->
    reaches ins g b g' b' fl ->
    g' = g /\ fl = repeat false (List.length ins).
Proof.
  induction ins as [|i ins IH]; intros g g' b b' fl Hu Hd Hns H.
  - destruct H as (r & [= <-] & <- & _ & <-). split; reflexivity.
  - apply reaches_cons_inv in H as (o & fl' & Ho & Hrest & ->).
    assert (Hi : classified i <> Some true) by (apply Hns; now left).
    assert (Hst : st o = g /\ complete o = false).
    { apply step_cases in Ho. destruct Ho; cbn [st complete]; auto; congruence. }
    destruct Hst as [Hst Hc]. rewrite Hst in Hrest.
    destruct (IH _ _ _ _ _ Hu Hd (fun s Hs => Hns s (or_intror Hs)) Hrest)
      as [-> ->].
    rewrite Hc. split; reflexivity.
Qed.

(** C4: in every run of calls from the reset state, a call that returns the
    flag [True] is preceded by a call whose frame was classified as speech,
    with no boundary declared between the two (so the speech frame comes after
    the last reset); in particular a run in which no frame is classified as
    speech never declares a boundary, however long it is. *)
Theorem no_boundary_before_speech (ins : list frame_input) (g : globals)
  (b : bytearray) (r : run) :
  is_reset g ->
  observe ins g b = Returns r ->
  (forall n, nth_error (flags r) n = Some true ->
     exists m s,
       (m < n)%nat /\ nth_error ins m = Some s /\ classified s = Some true
       /\ forall j, (m <= j < n)%nat -> nth_error (flags r) j = Some false)
  /\ ((forall s, In s ins -> classified s <> Some true) ->
      flags r = repeat false (List.length ins)).
Proof.
  intros Hreset Hr. apply observe_reaches in Hr. split.
  - intros n Hn.
    destruct (boundary_after_speech (reset_gated Hreset) Hr n Hn)
      as [H|[Hd _]]; [exact H|].
    destruct Hreset as [_ Hf]. congruence.
  - intros Hns. destruct Hreset as [Hs Hf].
    eapply waiting_forever; eauto. rewrite Hs. apply unset_minus_one.
Qed.

Lemma no_boundary_before_speech_witness :
  exists r,
    observe three_calls started [] = Returns r
    /\ is_reset started
    /\ (forall n, nth_error (flags r) n = Some true ->
         exists m s,
           (m < n)%nat /\ nth_error three_calls m = Some s
           /\ classified s = Some true
           /\ forall j, (m <= j < n)%nat -> nth_error (flags r) j = Some false)
    /\ ((forall s, In s three_calls -> classified s <> Some true) ->
        flags r = repeat false (List.length three_calls)).
Proof.
  eexists. split; [reflexivity|]. split; [split; reflexivity|].
  apply (@no_boundary_before_speech three_calls started []);
    [split; reflexivity|reflexivity].
Defined.

Lemma step_complete (i : frame_input) (g : globals) (b : bytearray)
  (o : observed) :
  silent_observer i g b = Returns o ->
  complete o = true ->
  classified i = Some false
  /\ unset (silence_start g) = false
  /\ PrimFloat.leb MAX_SILENCE_BREAK (clock i - silence_start g) = true
  /\ st o = refresh_observer g.
Proof.
  intros Ho Hc. apply step_cases in Ho.
  destruct Ho; cbn [complete] in Hc; try discriminate Hc. repeat split; auto.
Qed.

(** C10: with [silence_start] unset, a call whose frame is classified as
    non-speech returns the flag [False]: it records [silence_start = now] when
    [did_speak] holds, leaves the globals alone otherwise, and compares no
    duration with the threshold.  Hence, in every run from the reset state and
    whatever the clock readings, a call that declares a boundary has a
    non-speech frame and so has the most recent classified frame before it. *)
Theorem first_silent_frame_never_ends_sentence :
  (forall i g b frame,
      read i = Returns frame ->
      classified i = Some false ->
      unset (silence_start g) = true ->
      exists o,
        silent_observer i g b = Returns o
        /\ complete o = false
        /\ st o = (if did_speak g then set_timing (clock i) true g else g))
  /\ (forall pre i g b r,
        is_reset g ->
        observe (pre ++ [i]) g b = Returns r ->
        last (flags r) false = true ->
        classified i = Some false /\ last_classified pre None = Some false).
Proof.
  split.
  - intros i g b frame Hread Hc Hu.
    destruct (step_returns i g b Hread) as [o Ho]. exists o.
    split; [assumption|]. apply step_cases in Ho.
    destruct Ho as [f Hr Hc'|f e Hr _ _ Hc'|f o Hr Hc'|f o Hr Hc' Hu' Hd
                   |f o Hr Hc' Hu' Hd|f o Hr Hc' Hu' Hq|f o Hr Hc' Hu' Hq];
      cbn [st complete]; try congruence; rewrite Hd; split; reflexivity.
  - intros pre i g b r Hreset Hr Hlast. apply observe_reaches in Hr.
    apply reaches_app_inv in Hr as (g1 & b1 & f1 & f2 & H1 & H2 & Hfl).
    apply reaches_cons_inv in H2 as (o & fl' & Ho & Hnil & ->).
    destruct Hnil as (r0 & [= <-] & _ & _ & <-). cbn [flags] in Hfl.
    rewrite Hfl, last_last in Hlast.
    destruct (step_complete _ _ _ Ho Hlast) as (Hc & Hu & _ & _).
    split; [assumption|].
    assert (Hinv : observer_inv g1 (last_classified pre None)).
    { eapply run_inv; [|exact H1]. now apply reset_inv. }
    now apply Hinv.
Qed.

Lemma first_silent_frame_never_ends_sentence_witness :
  (exists o,
      silent_observer (silent_frame 100) (set_timing (-1) true started) []
      = Returns o
      /\ complete o = false
      /\ st o = set_timing 100 true (set_timing (-1) true started))
  /\ (exists r,
        observe ([speech_frame; silent_frame 1] ++ [silent_frame 2]) started []
        = Returns r
        /\ last (flags r) false = true
        /\ classified (silent_frame 2) = Some false
        /\ last_classified [speech_frame; silent_frame 1] None = Some false).
Proof.
  destruct first_silent_frame_never_ends_sentence as [Hfirst Hsecond]. split.
  - apply (Hfirst (silent_frame 100) (set_timing (-1) true started) []
             zero_frame); reflexivity.
  - eexists. split; [reflexivity|]. split; [reflexivity|].
    eapply (Hsecond [speech_frame; silent_frame 1] (silent_frame 2) started []);
      [split; reflexivity|reflexivity|reflexivity].
Defined.

(** ** The buffer *)

Lemma appended_length (i : frame_input) :
  Z.of_nat (List.length (appended i)) = if kept i then FRAME_BYTES else 0%Z.
Proof.
  unfold appended, kept, classified.
  destruct (read i) as [frame|e]; [|reflexivity].
  destruct (vad_result i) as [c|e]; [|reflexivity].
  destruct (full_frame frame) eqn:Hfull; [|reflexivity].
  now apply Z.eqb_eq.
Qed.

Lemma appended_total_length (ins : list frame_input) :
  Z.of_nat (List.length (List.concat (map appended ins)))
  = (Z.of_nat (List.length (filter kept ins)) * FRAME_BYTES)%Z.
Proof.
  induction ins as [|i ins IH]; [reflexivity|].
  cbn [map List.concat filter]. rewrite length_app, Nat2Z.inj_add, IH.
  rewrite appended_length. destruct (kept i); cbn [List.length]; lia.
Qed.

(** C8: the buffer only grows at its end, by the frames of the calls that
    keep theirs: after a run that held N such frames it is the buffer given
    at the start followed by those N frames, [N * FRAME_BYTES] bytes longer,
    and [FRAME_BYTES] is 960. *)
Theorem buffer_grows_by_whole_frames (ins : list frame_input) (g : globals)
  (b : bytearray) (r : run) :
  observe ins g b = Returns r ->
  sentence r = b ++ List.concat (map appended ins)
  /\ Z.of_nat (List.length (sentence r))
     = (Z.of_nat (List.length b)
        + Z.of_nat (List.length (filter kept ins)) * FRAME_BYTES)%Z
  /\ FRAME_BYTES = 960%Z.
Proof.
  intros Hr. apply observe_reaches, reaches_sentence in Hr.
  split; [assumption|]. split; [|reflexivity].
  rewrite Hr, length_app, Nat2Z.inj_add, appended_total_length. reflexivity.
Qed.

Lemma buffer_grows_by_whole_frames_witness :
  exists r,
    observe mixed_calls started [Byte.x01] = Returns r
    /\ sentence r = [Byte.x01] ++ List.concat (map appended mixed_calls)
    /\ Z.of_nat (List.length (sentence r))
       = (Z.of_nat (List.length [Byte.x01])
          + Z.of_nat (List.length (filter kept mixed_calls)) * FRAME_BYTES)%Z
    /\ FRAME_BYTES = 960%Z.
Proof.
  eexists. split; [reflexivity|].
  apply (@buffer_grows_by_whole_frames mixed_calls started [Byte.x01]).
  reflexivity.
Defined.

(** ** Runs with given clock readings *)

Section Arriving.

Variables (readings : nat -> float) (frames : nat -> bytearray).
Variable speech : nat -> bool.
Hypothesis Hframes : forall k, full_frame (frames k) = true.

Lemma arriving_cons (first n : nat) :
  arriving readings frames speech first (S n)
  = frame_at readings frames speech first
      :: arriving readings frames speech (S first) n.
Proof. reflexivity. Qed.

Lemma arriving_app (first n m : nat) :
  arriving readings frames speech first (n + m)
  = arriving readings frames speech first n
    ++ arriving readings frames speech (first + n) m.
Proof. unfold arriving. now rewrite seq_app, map_app. Qed.

Lemma arriving_appended (first n : nat) :
  map appended (arriving readings frames speech first n)
  = map frames (seq first n).
Proof.
  unfold arriving. rewrite map_map. apply map_ext. intros k.
  unfold appended, classified, frame_at. cbn [read vad_result].
  now rewrite Hframes.
Qed.

Lemma arriving_kept (first n : nat) :
  filter kept (arriving readings frames speech first n)
  = arriving readings frames speech first n.
Proof.
  apply forallb_filter_id, forallb_forall. intros i Hi.
  unfold arriving in Hi. apply in_map_iff in Hi as (k & <- & _).
  unfold kept, classified, frame_at. cbn [read vad_result].
  now rewrite Hframes.
Qed.

(** While the silence run that began with frame [j] measures less than the
    threshold, non-speech frames change nothing. *)
Lemma silence_continues (j n : nat) :
  forall (first : nat) (g : globals) (b : bytearray),
    silence_start g = readings j ->
    unset (readings j) = false ->
    (forall k, (first <= k < first + n)%nat ->
               speech k = false /\ below readings j k = true) ->
    exists b',
      reaches (arriving readings frames speech first n) g b g b'
        (repeat false n).
Proof.
  induction n as [|n IH]; intros first g b Hss Hset Hk.
  - exists b. apply reaches_nil.
  - destruct (Hk first ltac:(lia)) as [Hsp Hlt].
    apply negb_true_iff in Hlt.
    destruct (@step_silence_continues (frame_at readings frames speech first)
                g b (frames first)) as [o Ho];
      unfold frame_at; cbn [read vad_result clock]; auto.
    + now rewrite Hsp.
    + now rewrite Hss.
    + now rewrite Hss.
    + destruct (IH (S first) g (b ++ frames first) Hss Hset) as [b' Hrest].
      { intros k Hr. apply Hk. lia. }
      exists b'. rewrite arriving_cons. cbn [repeat].
      eapply reaches_step; eauto.
Qed.

(** A speech frame [s], a first non-speech frame and [m] more that stay
    below the threshold: no boundary, and the silence run is timed from the
    reading at frame [s + 1]. *)
Lemma speech_then_silence (s m : nat) (g : globals) (b : bytearray) :
  speech s = true ->
  unset (readings (S s)) = false ->
  (forall k, (s < k <= s + S m)%nat -> speech k = false) ->
  (forall k, (S s < k <= s + S m)%nat -> below readings (S s) k = true) ->
  exists b',
    reaches (arriving readings frames speech s (S (S m))) g b
      (set_timing (readings (S s)) true g) b' (repeat false (S (S m))).
Proof.
  intros Hs Hset Hquiet Hbelow.
  set (g1 := set_timing (-1) true g).
  set (g2 := set_timing (readings (S s)) true g).
  assert (H1 : silent_observer (frame_at readings frames speech s) g b
               = Returns (mkObserved g1 [PrintStatus Speaking]
                            (b ++ frames s) false)).
  { apply step_speech; unfold frame_at; cbn [read vad_result]; auto.
    now rewrite Hs. }
  assert (H2 : silent_observer (frame_at readings frames speech (S s)) g1
                 (b ++ frames s)
               = Returns (mkObserved g2
                            [PrintStatus (Silence (readings (S s) - 0))]
                            ((b ++ frames s) ++ frames (S s)) false)).
  { apply (@step_silence_begins (frame_at readings frames speech (S s)) g1
             (b ++ frames s) (frames (S s)));
      unfold frame_at; cbn [read vad_result]; auto.
    rewrite Hquiet by lia. reflexivity. }
  destruct (@silence_continues (S s) m (S (S s)) g2
              ((b ++ frames s) ++ frames (S s))) as [b' H3];
    [reflexivity|exact Hset| |].
  { intros k Hk. split; [apply Hquiet|apply Hbelow]; lia. }
  exists b'. rewrite !arriving_cons. cbn [repeat].
  eapply reaches_step; [exact H1|]. eapply reaches_step; [exact H2|].
  exact H3.
Qed.

(** A non-speech frame at which the silence run that began with frame [j]
    measures the threshold or more declares the boundary. *)
Lemma silence_ends (j k : nat) (g : globals) (b : bytearray) :
  silence_start g = readings j ->
  unset (readings j) = false ->
  (MAX_SILENCE_BREAK <=? readings k - readings j) = true ->
  speech k = false ->
  reaches (arriving readings frames speech k 1) g b
    (refresh_observer g) (b ++ frames k) [true].
Proof.
  intros Hss Hset Hk Hsp.
  destruct (@step_boundary (frame_at readings frames speech k) g b (frames k))
    as [o Ho]; unfold frame_at; cbn [read vad_result clock]; auto.
  - now rewrite Hsp.
  - now rewrite Hss.
  - now rewrite Hss.
  - rewrite arriving_cons. eapply reaches_step; [exact Ho|].
    apply reaches_nil.
Qed.

(** Speech on frame [s], then non-speech frames: the boundary is declared by
    frame [s + 2 + m], the first at which the silence timed from frame
    [s + 1] measures the threshold. *)
Lemma speech_then_boundary (s m : nat) (g : globals) (b : bytearray) :
  speech s = true ->
  unset (readings (S s)) = false ->
  (forall k, (s < k <= s + 2 + m)%nat -> speech k = false) ->
  (forall k, (S s < k < s + 2 + m)%nat -> below readings (S s) k = true) ->
  (MAX_SILENCE_BREAK <=? readings (s + 2 + m) - readings (S s)) = true ->
  exists b',
    reaches (arriving readings frames speech s (S (S m) + 1)) g b
      (refresh_observer (set_timing (readings (S s)) true g)) b'
      (repeat false (S (S m)) ++ [true]).
Proof.
  intros Hs Hset Hquiet Hbelow Hlong.
  destruct (@speech_then_silence s m g b Hs Hset) as [b1 H1].
  { intros k Hk. apply Hquiet. lia. }
  { intros k Hk. apply Hbelow. lia. }
  pose proof (@silence_ends (S s) (s + 2 + m)
                (set_timing (readings (S s)) true g) b1 eq_refl Hset Hlong)
    as H2.
  specialize (H2 (Hquiet (s + 2 + m)%nat ltac:(lia))).
  exists (b1 ++ frames (s + 2 + m)). rewrite arriving_app.
  replace (s + S (S m))%nat with (s + 2 + m)%nat by lia.
  eapply reaches_app; eauto.
Qed.

End Arriving.

Lemma zero_frames_full (k : nat) : full_frame (zero_frames k) = true.
Proof. reflexivity. Qed.

Lemma run_of_reaches (ins : list frame_input) (g g' : globals)
  (b' : bytearray) (fl : list bool) (frames : nat -> bytearray)
  (first n : nat) :
  filter kept ins = ins ->
  map appended ins = map frames (seq first n) ->
  reaches ins g [] g' b' fl ->
  exists r,
    observe ins g [] = Returns r
    /\ flags r = fl
    /\ final r = g'
    /\ sentence r = List.concat (map frames (seq first n))
    /\ Z.of_nat (List.length (sentence r)) = (Z.of_nat n * FRAME_BYTES)%Z.
Proof.
  intros Hkept Happ H. pose proof (reaches_sentence H) as Hb.
  destruct H as (r & Hr & <- & <- & <-). exists r.
  cbn [app] in Hb. rewrite Happ in Hb. repeat split; auto.
  rewrite Hb, <- Happ, appended_total_length.
  rewrite Hkept.
  now rewrite <- (length_map appended), Happ, length_map, length_seq.
Qed.

Lemma checked_range (f : nat -> bool) (first n k : nat) :
  forallb f (seq first n) = true ->
  (first <= k < first + n)%nat -> f k = true.
Proof.
  intros H Hk. rewrite forallb_forall in H. apply H, in_seq. exact Hk.
Qed.

(** ** The two scenarios *)

Lemma quiet_after_first (k : nat) :
  (1 < k)%nat -> speech_on_first k = false.
Proof. intros Hk. apply Nat.eqb_neq. lia. Qed.

Lemma quiet_between (k : nat) :
  (1 < k <= 16)%nat -> speech_on_first_and_17th k = false.
Proof.
  intros Hk. unfold speech_on_first_and_17th. apply orb_false_iff.
  split; apply Nat.eqb_neq; lia.
Qed.

Lemma quiet_after_17th (k : nat) :
  (17 < k)%nat -> speech_on_first_and_17th k = false.
Proof.
  intros Hk. unfold speech_on_first_and_17th. apply orb_false_iff.
  split; apply Nat.eqb_neq; lia.
Qed.

(** Speech on frame 1 only: the run up to frame [3 + m], the first frame at
    which the silence timed from frame 2 measures the threshold. *)
Lemma one_speech_frame_run (readings : nat -> float)
  (frames : nat -> bytearray) (g : globals) (m : nat) :
  (forall k, full_frame (frames k) = true) ->
  unset (readings 2%nat) = false ->
  (forall k, (2 < k < 3 + m)%nat -> below readings 2 k = true) ->
  (MAX_SILENCE_BREAK <=? readings (3 + m)%nat - readings 2%nat) = true ->
  exists r,
    observe (arriving readings frames speech_on_first 1 (3 + m)) g []
    = Returns r
    /\ flags r = repeat false (2 + m) ++ [true]
    /\ is_reset (final r)
    /\ sentence r = List.concat (map frames (seq 1 (3 + m)))
    /\ Z.of_nat (List.length (sentence r)) = (Z.of_nat (3 + m) * FRAME_BYTES)%Z.
Proof.
  intros Hframes Hset Hbelow Hlong.
  destruct (@speech_then_boundary readings frames speech_on_first Hframes
              1 m g []) as [b' H]; auto.
  { intros k Hk. apply quiet_after_first. lia. }
  replace (S (S m) + 1)%nat with (3 + m)%nat in H by lia.
  destruct (@run_of_reaches _ g _ b' _ frames 1 (3 + m)
              (@arriving_kept readings frames speech_on_first Hframes 1 (3 + m))
              (@arriving_appended readings frames speech_on_first Hframes 1
                 (3 + m)) H)
    as (r & Hr & Hfl & Hfinal & Hs & Hlen).
  exists r. repeat split; auto; now rewrite Hfinal.
Qed.

(** What [first_scenario_ok] has checked. *)
Lemma first_scenario_boundary (t0 : Z) (frames : nat -> bytearray)
  (g : globals) :
  first_scenario_ok t0 = true ->
  (forall k, full_frame (frames k) = true) ->
  exists n r,
    (n = 22 \/ n = 23)%nat
    /\ observe (arriving (arrival t0) frames speech_on_first 1 n) g []
       = Returns r
    /\ flags r = repeat false (n - 1) ++ [true]
    /\ Z.of_nat (List.length (sentence r)) = (Z.of_nat n * FRAME_BYTES)%Z.
Proof.
  unfold first_scenario_ok. intros Hok Hframes.
  apply andb_true_iff in Hok as [Hok H23].
  apply andb_true_iff in Hok as [Hset H21]. apply negb_true_iff in Hset.
  destruct (MAX_SILENCE_BREAK <=? arrival t0 22 - arrival t0 2) eqn:H22.
  - destruct (@one_speech_frame_run (arrival t0) frames g 19 Hframes Hset)
      as (r & Hr & Hfl & _ & _ & Hlen); auto.
    { intros k Hk. apply (checked_range _ _ H21). lia. }
    exists 22%nat, r. repeat split; auto.
  - destruct (@one_speech_frame_run (arrival t0) frames g 20 Hframes Hset)
      as (r & Hr & Hfl & _ & _ & Hlen); auto.
    { intros k Hk. destruct (Nat.eq_dec k 22) as [->|Hne].
      - unfold below. now rewrite H22.
      - apply (checked_range _ _ H21). lia. }
    exists 23%nat, r. repeat split; auto.
Qed.

Lemma first_scenario_checked :
  forallb first_scenario_ok (map Z.of_nat (seq 0 1000)) = true.
Proof. vm_compute. reflexivity. Qed.

Lemma in_first_second (t0 : Z) :
  (0 <= t0 < 1000)%Z -> In t0 (map Z.of_nat (seq 0 1000)).
Proof.
  intros Ht. apply in_map_iff. exists (Z.to_nat t0).
  split; [lia|apply in_seq; lia].
Qed.

(** C1, as the code has it: frame 1 is speech and the frames after it are
    non-speech.  The silence run is timed from the reading of the clock at
    frame 2, the first non-speech frame, and the boundary is declared by the
    first later frame at which the difference of the readings, computed in
    double precision, is at least the double 0.6; every frame before it
    returns [False], the buffer returned with the boundary holds all the
    frames up to it, and the timing globals are reset.  When frames arrive
    every 30 ms and the clock reads the double nearest to the time of
    arrival, this is frame 22 for a clock that starts at 0, frame 23 for one
    that starts at 1 s, and frame 22 or 23, never an earlier one, for every
    start that is a whole number of milliseconds below 1 s. *)
Theorem boundary_on_first_frame_past_threshold :
  (forall readings frames g m,
      (forall k, full_frame (frames k) = true) ->
      unset (readings 2%nat) = false ->
      (forall k, (2 < k < 3 + m)%nat -> below readings 2 k = true) ->
      (MAX_SILENCE_BREAK <=? readings (3 + m)%nat - readings 2%nat) = true ->
      exists r,
        observe (arriving readings frames speech_on_first 1 (3 + m)) g []
        = Returns r
        /\ flags r = repeat false (2 + m) ++ [true]
        /\ is_reset (final r)
        /\ sentence r = List.concat (map frames (seq 1 (3 + m)))
        /\ Z.of_nat (List.length (sentence r))
           = (Z.of_nat (3 + m) * FRAME_BYTES)%Z)
  /\ (forall frames g,
        (forall k, full_frame (frames k) = true) ->
        exists r,
          observe (arriving (arrival 0) frames speech_on_first 1 22) g []
          = Returns r
          /\ flags r = repeat false 21 ++ [true]
          /\ Z.of_nat (List.length (sentence r)) = (22 * FRAME_BYTES)%Z)
  /\ (forall frames g,
        (forall k, full_frame (frames k) = true) ->
        exists r,
          observe (arriving (arrival 1000) frames speech_on_first 1 23) g []
          = Returns r
          /\ flags r = repeat false 22 ++ [true]
          /\ Z.of_nat (List.length (sentence r)) = (23 * FRAME_BYTES)%Z)
  /\ (forall t0 frames g,
        (0 <= t0 < 1000)%Z ->
        (forall k, full_frame (frames k) = true) ->
        exists n r,
          (n = 22 \/ n = 23)%nat
          /\ observe (arriving (arrival t0) frames speech_on_first 1 n) g []
             = Returns r
          /\ flags r = repeat false (n - 1) ++ [true]
          /\ Z.of_nat (List.length (sentence r)) = (Z.of_nat n * FRAME_BYTES)%Z).
Proof.
  split; [exact one_speech_frame_run|]. split; [|split].
  - intros frames g Hframes.
    destruct (@one_speech_frame_run (arrival 0) frames g 19 Hframes)
      as (r & Hr & Hfl & _ & _ & Hlen); try reflexivity.
    { intros k Hk.
      apply (@checked_range (below (arrival 0) 2) 3 19); [reflexivity|lia]. }
    exists r. repeat split; auto.
  - intros frames g Hframes.
    destruct (@one_speech_frame_run (arrival 1000) frames g 20 Hframes)
      as (r & Hr & Hfl & _ & _ & Hlen); try reflexivity.
    { intros k Hk.
      apply (@checked_range (below (arrival 1000) 2) 3 20); [reflexivity|lia]. }
    exists r. repeat split; auto.
  - intros t0 frames g Ht Hframes. apply first_scenario_boundary; auto.
    pose proof first_scenario_checked as H. rewrite forallb_forall in H.
    apply H, in_first_second, Ht.
Qed.

Lemma boundary_on_first_frame_past_threshold_witness :
  (exists r,
      observe (arriving (arrival 0) zero_frames speech_on_first 1 22) started []
      = Returns r
      /\ flags r = repeat false 21 ++ [true]
      /\ Z.of_nat (List.length (sentence r)) = (22 * FRAME_BYTES)%Z)
  /\ (exists n r,
        (n = 22 \/ n = 23)%nat
        /\ observe (arriving (arrival 500) zero_frames speech_on_first 1 n)
             started [] = Returns r
        /\ flags r = repeat false (n - 1) ++ [true]
        /\ Z.of_nat (List.length (sentence r)) = (Z.of_nat n * FRAME_BYTES)%Z).
Proof.
  destruct boundary_on_first_frame_past_threshold as (_ & H0 & _ & Hany).
  split.
  - apply (H0 zero_frames started). exact zero_frames_full.
  - apply (Hany 500%Z zero_frames started); [lia|exact zero_frames_full].
Defined.

(** C1, as stated, fails: with the clock starting at 0 and frames of digital
    silence, the 21 calls of the scenario all return the flag [False]; frame
    21 does not declare the boundary. *)
Lemma no_boundary_on_frame_21 :
  exists r,
    observe (arriving (arrival 0) zero_frames speech_on_first 1 21) started []
    = Returns r
    /\ flags r = repeat false 21
    /\ nth_error (flags r) 20 = Some false.
Proof.
  destruct (@speech_then_silence (arrival 0) zero_frames speech_on_first
              zero_frames_full 1 19 started [])
    as [b1 (r & Hr & _ & _ & Hfl)]; try reflexivity.
  { intros k Hk. apply quiet_after_first. lia. }
  { intros k Hk.
    apply (@checked_range (below (arrival 0) 2) 3 19); [reflexivity|lia]. }
  exists r. split; [exact Hr|]. split; [exact Hfl|]. now rewrite Hfl.
Qed.

(** Speech on frames 1 and 17 only: the 16 frames before the second speech
    frame, with the first silence run below the threshold. *)
Lemma interrupted_start (readings : nat -> float) (frames : nat -> bytearray)
  (g : globals) :
  (forall k, full_frame (frames k) = true) ->
  unset (readings 2%nat) = false ->
  (forall k, (2 < k <= 16)%nat -> below readings 2 k = true) ->
  exists b',
    reaches (arriving readings frames speech_on_first_and_17th 1 16) g []
      (set_timing (readings 2%nat) true g) b' (repeat false 16).
Proof.
  intros Hframes Hset Hbelow.
  apply (@speech_then_silence readings frames speech_on_first_and_17th
           Hframes 1 14 g []); auto.
  intros k Hk. apply quiet_between. lia.
Qed.

(** The same run up to frame [19 + m], the first frame at which the silence
    timed from frame 18 measures the threshold. *)
Lemma interrupted_run (readings : nat -> float) (frames : nat -> bytearray)
  (g : globals) (m : nat) :
  (forall k, full_frame (frames k) = true) ->
  unset (readings 2%nat) = false ->
  unset (readings 18%nat) = false ->
  (forall k, (2 < k <= 16)%nat -> below readings 2 k = true) ->
  (forall k, (18 < k < 19 + m)%nat -> below readings 18 k = true) ->
  (MAX_SILENCE_BREAK <=? readings (19 + m)%nat - readings 18%nat) = true ->
  exists r,
    observe (arriving readings frames speech_on_first_and_17th 1 (19 + m)) g []
    = Returns r
    /\ flags r = repeat false (18 + m) ++ [true]
    /\ is_reset (final r).
Proof.
  intros Hframes Hset2 Hset18 Hfirst Hsecond Hlong.
  destruct (@interrupted_start readings frames g Hframes Hset2 Hfirst)
    as [b1 H1].
  destruct (@speech_then_boundary readings frames speech_on_first_and_17th
              Hframes 17 m (set_timing (readings 2%nat) true g) b1)
    as [b2 H2]; auto.
  { intros k Hk. apply quiet_after_17th. lia. }
  pose proof (reaches_app H1 H2) as H. rewrite <- arriving_app in H.
  replace (16 + (S (S m) + 1))%nat with (19 + m)%nat in H by lia.
  rewrite app_assoc, <- repeat_app in H.
  replace (16 + S (S m))%nat with (18 + m)%nat in H by lia.
  destruct H as (r & Hr & Hfinal & _ & Hfl). exists r.
  repeat split; auto; now rewrite Hfinal.
Qed.

(** The 37 frames of the scenario when no frame from 19 to 37 measures the
    threshold: no boundary, and the silence run in progress at the end is
    timed from frame 18. *)
Lemma interrupted_quiet (readings : nat -> float) (frames : nat -> bytearray)
  (g : globals) :
  (forall k, full_frame (frames k) = true) ->
  unset (readings 2%nat) = false ->
  unset (readings 18%nat) = false ->
  (forall k, (2 < k <= 16)%nat -> below readings 2 k = true) ->
  (forall k, (18 < k <= 37)%nat -> below readings 18 k = true) ->
  exists r,
    observe (arriving readings frames speech_on_first_and_17th 1 37) g []
    = Returns r
    /\ flags r = repeat false 37
    /\ silence_start (final r) = readings 18%nat.
Proof.
  intros Hframes Hset2 Hset18 Hfirst Hsecond.
  destruct (@interrupted_start readings frames g Hframes Hset2 Hfirst)
    as [b1 H1].
  destruct (@speech_then_silence readings frames speech_on_first_and_17th
              Hframes 17 19 (set_timing (readings 2%nat) true g) b1)
    as [b2 H2];
    [reflexivity|exact Hset18
    |intros k Hk; apply quiet_after_17th; lia
    |intros k Hk; apply Hsecond; lia|].
  pose proof (reaches_app H1 H2) as H. rewrite <- arriving_app in H.
  destruct H as (r & Hr & Hfinal & _ & Hfl). exists r.
  repeat split; auto. now rewrite Hfinal.
Qed.

(** What [second_scenario_ok] has checked. *)
Lemma second_scenario_boundary (t0 : Z) (frames : nat -> bytearray)
  (g : globals) :
  second_scenario_ok t0 = true ->
  (forall k, full_frame (frames k) = true) ->
  (exists r,
      observe (arriving (arrival t0) frames speech_on_first_and_17th 1 37) g []
      = Returns r
      /\ flags r = repeat false 37)
  /\ exists n r,
       (n = 38 \/ n = 39)%nat
       /\ observe (arriving (arrival t0) frames speech_on_first_and_17th 1 n)
            g [] = Returns r
       /\ flags r = repeat false (n - 1) ++ [true].
Proof.
  unfold second_scenario_ok. intros Hok Hframes.
  apply andb_true_iff in Hok as [Hok H39].
  apply andb_true_iff in Hok as [Hok H37].
  apply andb_true_iff in Hok as [Hok H16].
  apply andb_true_iff in Hok as [Hset2 Hset18].
  apply negb_true_iff in Hset2, Hset18.
  assert (Hfirst : forall k, (2 < k <= 16)%nat ->
                             below (arrival t0) 2 k = true).
  { intros k Hk. apply (checked_range _ _ H16). lia. }
  assert (Hsecond : forall k, (18 < k <= 37)%nat ->
                              below (arrival t0) 18 k = true).
  { intros k Hk. apply (checked_range _ _ H37). lia. }
  split.
  - destruct (@interrupted_quiet (arrival t0) frames g Hframes Hset2 Hset18
                Hfirst Hsecond) as (r & Hr & Hfl & _).
    now exists r.
  - destruct (MAX_SILENCE_BREAK <=? arrival t0 38 - arrival t0 18) eqn:H38.
    + destruct (@interrupted_run (arrival t0) frames g 19 Hframes Hset2 Hset18
                  Hfirst) as (r & Hr & Hfl & _); auto.
      { intros k Hk. apply Hsecond. lia. }
      exists 38%nat, r. repeat split; auto.
    + destruct (@interrupted_run (arrival t0) frames g 20 Hframes Hset2 Hset18
                  Hfirst) as (r & Hr & Hfl & _); auto.
      { intros k Hk. destruct (Nat.eq_dec k 38) as [->|Hne].
        - unfold below. now rewrite H38.
        - apply Hsecond. lia. }
      exists 39%nat, r. repeat split; auto.
Qed.

Lemma second_scenario_checked :
  forallb second_scenario_ok (map Z.of_nat (seq 0 1000)) = true.
Proof. vm_compute. reflexivity. Qed.

Lemma second_scenario_at_0 : second_scenario_ok 0 = true.
Proof. reflexivity. Qed.

(** C6, as the code has it: a call whose frame is classified as speech while
    a silence run is in progress sets [silence_start] back to [-1] and
    [did_speak] to [True], and returns the flag [False]: the run timed so far
    is forgotten.  In the scenario of 1 speech, 15 non-speech, 1 speech and
    then non-speech frames, the second silence run is timed from the reading
    of the clock at frame 18 alone, and the boundary is declared by the first
    later frame at which the difference from that reading, computed in double
    precision, is at least the double 0.6.  When frames arrive every 30 ms
    and the clock reads the double nearest to the time of arrival, none of
    the first 37 frames declares a boundary; the boundary falls on frame 39
    for a clock that starts at 0, and on frame 38 or 39 for every start that
    is a whole number of milliseconds below 1 s. *)
Theorem speech_restarts_silence_timer :
  (forall i g b frame,
      read i = Returns frame ->
      classified i = Some true ->
      unset (silence_start g) = false ->
      silent_observer i g b
      = Returns (mkObserved (set_timing (-1) true g) [PrintStatus Speaking]
                   (b ++ frame) false))
  /\ (forall readings frames g m,
        (forall k, full_frame (frames k) = true) ->
        unset (readings 2%nat) = false ->
        unset (readings 18%nat) = false ->
        (forall k, (2 < k <= 16)%nat -> below readings 2 k = true) ->
        (forall k, (18 < k < 19 + m)%nat -> below readings 18 k = true) ->
        (MAX_SILENCE_BREAK <=? readings (19 + m)%nat - readings 18%nat) = true ->
        exists r,
          observe (arriving readings frames speech_on_first_and_17th 1 (19 + m))
            g [] = Returns r
          /\ flags r = repeat false (18 + m) ++ [true]
          /\ is_reset (final r))
  /\ (forall frames g,
        (forall k, full_frame (frames k) = true) ->
        (exists r,
            observe (arriving (arrival 0) frames speech_on_first_and_17th 1 37)
              g [] = Returns r
            /\ flags r = repeat false 37
            /\ silence_start (final r) = arrival 0 18)
        /\ (exists r,
              observe (arriving (arrival 0) frames speech_on_first_and_17th 1 39)
                g [] = Returns r
              /\ flags r = repeat false 38 ++ [true]))
  /\ (forall t0 frames g,
        (0 <= t0 < 1000)%Z ->
        (forall k, full_frame (frames k) = true) ->
        (exists r,
            observe (arriving (arrival t0) frames speech_on_first_and_17th 1 37)
              g [] = Returns r
            /\ flags r = repeat false 37)
        /\ exists n r,
             (n = 38 \/ n = 39)%nat
             /\ observe
                  (arriving (arrival t0) frames speech_on_first_and_17th 1 n)
                  g [] = Returns r
             /\ flags r = repeat false (n - 1) ++ [true]).
Proof.
  split; [|split; [|split]].
  - intros i g b frame Hread Hc _. unfold classified in Hc. rewrite Hread in Hc.
    destruct (vad_result i) as [c|e] eqn:Hvad; [|discriminate].
    destruct (full_frame frame) eqn:Hfull; [|discriminate].
    injection Hc as ->. now apply step_speech.
  - exact interrupted_run.
  - intros frames g Hframes. split.
    + apply interrupted_quiet; auto; try reflexivity.
      * intros k Hk.
        apply (@checked_range (below (arrival 0) 2) 3 14); [reflexivity|lia].
      * intros k Hk.
        apply (@checked_range (below (arrival 0) 18) 19 19); [reflexivity|lia].
    + destruct (@interrupted_run (arrival 0) frames g 20 Hframes)
        as (r & Hr & Hfl & _); try reflexivity.
      * intros k Hk.
        apply (@checked_range (below (arrival 0) 2) 3 14); [reflexivity|lia].
      * intros k Hk.
        apply (@checked_range (below (arrival 0) 18) 19 20); [reflexivity|lia].
      * now exists r.
  - intros t0 frames g Ht Hframes. apply second_scenario_boundary; auto.
    pose proof second_scenario_checked as H. rewrite forallb_forall in H.
    apply H, in_first_second, Ht.
Qed.

Lemma speech_restarts_silence_timer_witness :
  silent_observer speech_frame (in_silence 5) []
  = Returns (mkObserved (set_timing (-1) true (in_silence 5))
               [PrintStatus Speaking] ([] ++ zero_frame) false)
  /\ ((exists r,
          observe (arriving (arrival 0) zero_frames speech_on_first_and_17th
                     1 37) started [] = Returns r
          /\ flags r = repeat false 37
          /\ silence_start (final r) = arrival 0 18)
      /\ (exists r,
            observe (arriving (arrival 0) zero_frames speech_on_first_and_17th
                       1 39) started [] = Returns r
            /\ flags r = repeat false 38 ++ [true])).
Proof.
  destruct speech_restarts_silence_timer as (Hstep & _ & Hzero & _). split.
  - apply (Hstep speech_frame (in_silence 5) [] zero_frame); reflexivity.
  - apply (Hzero zero_frames started). exact zero_frames_full.
Defined.

(** C6, as stated, fails in its scenario: with the clock starting at 0 and
    frames of digital silence, the 37 calls all return the flag [False]; no
    boundary is declared on frame 37. *)
Lemma no_boundary_on_frame_37 :
  exists r,
    observe (arriving (arrival 0) zero_frames speech_on_first_and_17th 1 37)
      started [] = Returns r
    /\ flags r = repeat false 37
    /\ nth_error (flags r) 36 = Some false.
Proof.
  destruct (@interrupted_quiet (arrival 0) zero_frames started zero_frames_full)
    as (r & Hr & Hfl & _); try reflexivity.
  { intros k Hk.
    apply (@checked_range (below (arrival 0) 2) 3 14); [reflexivity|lia]. }
  { intros k Hk.
    apply (@checked_range (below (arrival 0) 18) 19 19); [reflexivity|lia]. }
  exists r. split; [exact Hr|]. split; [exact Hfl|]. now rewrite Hfl.
Qed.

(** * Further properties of the observer *)

Lemma classified_inv (i : frame_input) (c : bool) :
  classified i = Some c ->
  exists frame,
    read i = Returns frame /\ full_frame frame = true
    /\ vad_result i = Returns c.
Proof.
  unfold classified. destruct (read i) as [frame|e]; [|discriminate].
  destruct (vad_result i) as [c'|e]; [|discriminate].
  destruct (full_frame frame) eqn:Hfull; [|discriminate].
  intros [= ->]. now exists frame.
Qed.

Lemma kill_observer_running (d : device_calls) (g : globals) :
  is_observer_running (fst (kill_observer d g))
  = match snd (kill_observer d g) with
    | Returns _ => false
    | Raises _ => is_observer_running g
    end.
Proof.
  unfold kill_observer, is_observer_running.
  destruct (stream g) as [s|]; [|reflexivity].
  destruct (stop_stream_result d) as [[]|e1]; [|reflexivity].
  destruct (close_result d) as [[]|e2]; [|reflexivity].
  destruct (pa g) as [live|]; [|reflexivity].
  now destruct (terminate_result d) as [[]|e3].
Qed.

(** X1: [kill_observer] returns normally exactly when [stream] and [pa] are
    bound and the three device calls return, and only then is [enabled]
    cleared: after any failure the observer is still reported as it was
    (running, if it was), whatever has become of the stream.  The timing
    globals and the classifier are never touched. *)
Theorem kill_observer_clears_enabled_only_on_success (d : device_calls)
  (g : globals) :
  (snd (kill_observer d g) = Returns tt
   <-> stream g <> None /\ pa g <> None
       /\ stop_stream_result d = Returns tt
       /\ close_result d = Returns tt
       /\ terminate_result d = Returns tt)
  /\ is_observer_running (fst (kill_observer d g))
     = match snd (kill_observer d g) with
       | Returns _ => false
       | Raises _ => is_observer_running g
       end
  /\ silence_start (fst (kill_observer d g)) = silence_start g
  /\ did_speak (fst (kill_observer d g)) = did_speak g
  /\ vad (fst (kill_observer d g)) = vad g.
Proof.
  unfold kill_observer, is_observer_running.
  destruct (stream g) as [s|]; cbn.
  2: { repeat split; try discriminate. intros (H & _). now elim H. }
  destruct (stop_stream_result d) as [[]|e1]; cbn.
  2: { repeat split; try discriminate. intros (_ & _ & H & _). discriminate. }
  destruct (close_result d) as [[]|e2]; cbn.
  2: { repeat split; try discriminate.
       intros (_ & _ & _ & H & _). discriminate. }
  destruct (pa g) as [live|]; cbn.
  2: { repeat split; try discriminate. intros (_ & H & _). now elim H. }
  destruct (terminate_result d) as [[]|e3]; cbn.
  2: { repeat split; try discriminate.
       intros (_ & _ & _ & _ & H). discriminate. }
  repeat split; discriminate.
Qed.

Lemma step_raises_iff (i : frame_input) (g : globals) (b : bytearray)
  (e : string) :
  silent_observer i g b = Raises e <-> read i = Raises e.
Proof.
  split.
  - intros H. destruct (read i) as [frame|e'] eqn:Hread.
    + destruct (step_returns i g b Hread) as [o Ho]. congruence.
    + unfold silent_observer in H. rewrite Hread in H. cbn [bind] in H.
      congruence.
  - intros H. unfold silent_observer. now rewrite H.
Qed.

Lemma step_returns_inv (i : frame_input) (g : globals) (b : bytearray)
  (o : observed) :
  silent_observer i g b = Returns o -> exists frame, read i = Returns frame.
Proof.
  intros H. destruct (read i) as [frame|e] eqn:Hread; [now exists frame|].
  apply step_raises_iff with (g := g) (b := b) in Hread. congruence.
Qed.

(** X2: the only exception that leaves a run of calls is one raised by
    [stream.read]: the run raises [e] exactly when some read raises [e] and
    every read before it has returned.  Unlike a classifier error, a failed
    read is not recovered by [silent_observer]. *)
Theorem run_raises_iff_read_raises (ins : list frame_input) (g : globals)
  (b : bytearray) (e : string) :
  observe ins g b = Raises e
  <-> exists pre i post,
        ins = pre ++ i :: post
        /\ Forall (fun j => exists frame, read j = Returns frame) pre
        /\ read i = Raises e.
Proof.
  split.
  - revert g b. induction ins as [|i ins IH]; intros g b H; [discriminate|].
    cbn [observe] in H.
    destruct (silent_observer i g b) as [o|e'] eqn:Ho; cbn [bind] in H.
    + destruct (observe ins (st o) (buf o)) as [rr|e''] eqn:Hrr;
        cbn [bind] in H; [discriminate|]. injection H as ->.
      apply IH in Hrr as (pre & j & post & -> & Hpre & Hj).
      exists (i :: pre), j, post. repeat split; auto.
      constructor; [eapply step_returns_inv; eauto|assumption].
    + injection H as ->. apply step_raises_iff in Ho.
      exists [], i, ins. repeat split; auto.
  - intros (pre & i & post & -> & Hpre & Hi). revert g b.
    induction Hpre as [|j pre [frame Hj] _ IH]; intros g b; cbn [app observe].
    + apply (step_raises_iff i g b) in Hi. now rewrite Hi.
    + destruct (step_returns j g b Hj) as [o Ho]. rewrite Ho. cbn [bind].
      now rewrite IH.
Qed.

(** X3: the first non-speech frame after a speech frame reports the reading
    of the clock itself as the duration of the silence: [did_speak] holds and
    [silence_start] is still [-1], so the status line is computed as
    [now - 0].  The same call records [silence_start = now]. *)
Theorem first_silent_frame_reports_clock (i1 i2 : frame_input) (g : globals)
  (b : bytearray) :
  classified i1 = Some true ->
  classified i2 = Some false ->
  exists r,
    observe [i1; i2] g b = Returns r
    /\ printed r = [PrintStatus Speaking; PrintStatus (Silence (clock i2 - 0))]
    /\ silence_start (final r) = clock i2
    /\ flags r = [false; false].
Proof.
  intros H1 H2.
  apply classified_inv in H1 as (f1 & Hr1 & Hf1 & Hv1).
  apply classified_inv in H2 as (f2 & Hr2 & Hf2 & Hv2).
  eexists. cbn [observe].
  rewrite (@step_speech i1 g b f1 Hr1 Hf1 Hv1). cbn [bind st buf].
  rewrite (@step_silence_begins i2 (set_timing (-1) true g) (b ++ f1) f2
             Hr2 Hf2 Hv2 eq_refl eq_refl).
  cbn [bind]. repeat split.
Qed.

Lemma first_silent_frame_reports_clock_witness :
  exists r,
    observe [speech_frame; silent_frame 100] started [] = Returns r
    /\ printed r = [PrintStatus Speaking; PrintStatus (Silence (100 - 0))]
    /\ silence_start (final r) = 100
    /\ flags r = [false; false].
Proof.
  apply (@first_silent_frame_reports_clock speech_frame (silent_frame 100)
           started []); reflexivity.
Defined.

Lemma boundary_measured (ins : list frame_input) :
  forall (g g' : globals) (b b' : bytearray) (fl : list bool),
    reaches ins g b g' b' fl ->
    forall n, nth_error fl n = Some true ->
      exists i_n,
        nth_error ins n = Some i_n /\ classified i_n = Some false
        /\ ((exists m i_m,
                (m < n)%nat /\ nth_error ins m = Some i_m
                /\ classified i_m = Some false
                /\ PrimFloat.leb MAX_SILENCE_BREAK (clock i_n - clock i_m) = true
                /\ forall j i_j, (m < j < n)%nat -> nth_error ins j = Some i_j ->
                                 classified i_j <> Some true)
            \/ (unset (silence_start g) = false
                /\ PrimFloat.leb MAX_SILENCE_BREAK (clock i_n - silence_start g) = true
                /\ forall j i_j, (j < n)%nat -> nth_error ins j = Some i_j ->
                                 classified i_j <> Some true)).
Proof.
  induction ins as [|i ins IH]; intros g g' b b' fl H n Hn.
  - destruct H as (r & [= <-] & _ & _ & <-). destruct n; discriminate Hn.
  - apply reaches_cons_inv in H as (o & fl' & Ho & Hrest & ->).
    destruct n as [|n]; cbn [nth_error] in Hn.
    + injection Hn as Hc.
      destruct (step_complete _ _ _ Ho Hc) as (Hci & Hu & Hq & _).
      exists i. repeat split; auto. right. repeat split; auto.
      intros j i_j Hj. lia.
    + destruct (IH _ _ _ _ _ Hrest n Hn) as (i_n & Hin & Hcn & Hwhy).
      exists i_n. repeat split; auto.
      destruct Hwhy as [(m & i_m & Hm & Him & Hcm & Hq & Hno)|(Hu & Hq & Hno)].
      * left. exists (S m), i_m. repeat split; auto; try lia.
        intros [|j] i_j Hj Hij; [lia|]. cbn [nth_error] in Hij.
        eapply Hno; eauto. lia.
      * assert (Hrest' : forall j i_j, (0 < j < S n)%nat ->
                  nth_error (i :: ins) j = Some i_j ->
                  classified i_j <> Some true).
        { intros [|j] i_j Hj Hij; [lia|]. cbn [nth_error] in Hij.
          eapply Hno; eauto. lia. }
        apply step_cases in Ho.
        destruct Ho as [f Hr Hc|f e Hr _ _ Hc|f o Hr Hc|f o Hr Hc Hu' Hd
                       |f o Hr Hc Hu' Hd|f o Hr Hc Hu' Hq'|f o Hr Hc Hu' Hq'];
          cbn [st] in Hu, Hq; try discriminate Hu; try congruence.
        -- right. repeat split; auto. intros [|j] i_j Hj Hij;
             [injection Hij as <-; congruence|apply (Hrest' (S j)); auto; lia].
        -- right. repeat split; auto. intros [|j] i_j Hj Hij;
             [injection Hij as <-; congruence|apply (Hrest' (S j)); auto; lia].
        -- left. exists 0%nat, i. repeat split; auto. lia.
        -- right. repeat split; auto. intros [|j] i_j Hj Hij;
             [injection Hij as <-; congruence|apply (Hrest' (S j)); auto; lia].
Qed.

(** X4: in every run from the reset state, a call [n] that declares a
    boundary has a non-speech frame, and there is an earlier call [m], with a
    non-speech frame too, such that the difference of the two clock
    readings, computed in double precision, is at least the double
    [MAX_SILENCE_BREAK], and no frame in between was classified as speech: a
    sentence is closed only on a measured, uninterrupted silence that
    reaches the threshold. *)
Theorem boundary_follows_measured_silence (ins : list frame_input)
  (g : globals) (b : bytearray) (r : run) (n : nat) :
  is_reset g ->
  observe ins g b = Returns r ->
  nth_error (flags r) n = Some true ->
  exists m i_m i_n,
    (m < n)%nat
    /\ nth_error ins m = Some i_m /\ nth_error ins n = Some i_n
    /\ classified i_m = Some false /\ classified i_n = Some false
    /\ (MAX_SILENCE_BREAK <=? clock i_n - clock i_m) = true
    /\ forall j i_j, (m < j < n)%nat -> nth_error ins j = Some i_j ->
                     classified i_j <> Some true.
Proof.
  intros [Hs _] Hr Hn. apply observe_reaches in Hr.
  destruct (boundary_measured Hr n Hn) as (i_n & Hin & Hcn & Hwhy).
  destruct Hwhy as [(m & i_m & Hm & Him & Hcm & Hq & Hno)|(Hu & _)].
  - exists m, i_m, i_n. repeat split; auto.
  - rewrite Hs, unset_minus_one in Hu. discriminate.
Qed.

Lemma boundary_follows_measured_silence_witness :
  exists m i_m i_n,
    (m < 2)%nat
    /\ nth_error three_calls m = Some i_m /\ nth_error three_calls 2 = Some i_n
    /\ classified i_m = Some false /\ classified i_n = Some false
    /\ (MAX_SILENCE_BREAK <=? clock i_n - clock i_m) = true
    /\ forall j i_j, (m < j < 2)%nat -> nth_error three_calls j = Some i_j ->
                     classified i_j <> Some true.
Proof.
  eapply (@boundary_follows_measured_silence three_calls started []);
    [split; reflexivity|reflexivity|reflexivity].
Defined.

Lemma step_dropped (i : frame_input) (g : globals) (b : bytearray)
  (frame : bytearray) :
  read i = Returns frame -> kept i = false ->
  exists o, silent_observer i g b = Returns (mkObserved g o b false).
Proof.
  intros Hread Hk. destruct (step_returns i g b Hread) as [o Ho].
  pose proof (step_cases _ _ _ Ho) as Hcase. unfold kept in Hk.
  destruct Hcase as [f Hr Hc|f e Hr _ _ Hc|f o Hr Hc|f o Hr Hc Hu' Hd
                    |f o Hr Hc Hu' Hd|f o Hr Hc Hu' Hq'|f o Hr Hc Hu' Hq'];
    rewrite Hc in Hk; try discriminate Hk; eexists; exact Ho.
Qed.

(** X5: calls that drop their frame (short read, classifier error) leave no
    trace in a run: without them the run ends with the same globals and the
    same buffer, and the calls that remain return the same flags. *)
Theorem dropped_calls_leave_no_trace (ins : list frame_input) (g : globals)
  (b : bytearray) :
  Forall (fun j => exists frame, read j = Returns frame) ins ->
  exists r r',
    observe ins g b = Returns r
    /\ observe (filter kept ins) g b = Returns r'
    /\ final r' = final r
    /\ sentence r' = sentence r
    /\ flags r' = map snd (filter (fun c => kept (fst c)) (combine ins (flags r))).
Proof.
  intros H. revert g b. induction H as [|i ins [frame Hi] _ IH]; intros g b.
  - do 2 eexists. cbn. repeat split.
  - cbn [filter]. destruct (kept i) eqn:Hk.
    + destruct (step_returns i g b Hi) as [o Ho].
      destruct (IH (st o) (buf o)) as (r & r' & Hr & Hr' & Hf & Hs & Hfl).
      do 2 eexists. cbn [observe]. rewrite Ho. cbn [bind]. rewrite Hr, Hr'.
      cbn [bind]. repeat split; cbn [final sentence flags combine filter fst];
        auto. rewrite Hk. cbn [map snd]. now rewrite Hfl.
    + destruct (step_dropped i g b Hi Hk) as [o Ho].
      destruct (IH g b) as (r & r' & Hr & Hr' & Hf & Hs & Hfl).
      exists (mkRun (final r) (sentence r) (false :: flags r) (o ++ printed r)), r'.
      cbn [observe]. rewrite Ho. cbn [bind st buf]. rewrite Hr. cbn [bind].
      repeat split; cbn [final sentence flags combine filter fst complete out];
        auto. now rewrite Hk.
Qed.

Lemma dropped_calls_leave_no_trace_witness :
  exists r r',
    observe mixed_calls started [] = Returns r
    /\ observe (filter kept mixed_calls) started [] = Returns r'
    /\ final r' = final r
    /\ sentence r' = sentence r
    /\ flags r'
       = map snd (filter (fun c => kept (fst c)) (combine mixed_calls (flags r))).
Proof.
  apply (@dropped_calls_leave_no_trace mixed_calls started []).
  repeat constructor; eexists; reflexivity.
Defined.

(** Calls that drop their frame or carry a non-speech frame while the run of
    silence is shorter than the threshold change nothing but the buffer. *)
Lemma quiet_run (quiet : list frame_input) :
  forall (g : globals) (b : bytearray),
    unset (silence_start g) = false ->
    Forall (fun j => (exists frame, read j = Returns frame)
                     /\ classified j <> Some true
                     /\ (classified j = Some false ->
                         (MAX_SILENCE_BREAK <=? clock j - silence_start g)
                         = false)) quiet ->
    exists b',
      reaches quiet g b g b' (repeat false (List.length quiet)).
Proof.
  induction quiet as [|j quiet IH]; intros g b Hu Hq.
  - exists b. apply reaches_nil.
  - inversion Hq as [|? ? ([frame Hread] & Hns & Hlt) Hrest]; subst.
    destruct (step_returns j g b Hread) as [o Ho].
    pose proof (step_cases _ _ _ Ho) as Hcase.
    assert (Hst : st o = g /\ complete o = false).
    { destruct Hcase as [f Hr Hc|f e Hr _ _ Hc|f o Hr Hc|f o Hr Hc Hu' Hd
                        |f o Hr Hc Hu' Hd|f o Hr Hc Hu' Hq'|f o Hr Hc Hu' Hq'];
        cbn [st complete]; auto; try congruence.
      rewrite (Hlt Hc) in Hq'. discriminate. }
    destruct Hst as [Hst Hc].
    destruct (IH g (buf o) Hu Hrest) as [b' Hreach].
    exists b'. cbn [List.length repeat].
    replace (false :: repeat false (List.length quiet))
      with (complete o :: repeat false (List.length quiet))
      by now rewrite Hc.
    eapply reaches_cons; [exact Ho|]. rewrite Hst. exact Hreach.
Qed.

(** X6: whatever the clock readings, once a speech frame has been followed
    by a non-speech frame [i_m] (read at a time other than the sentinel -1),
    the sentence is closed by the first non-speech frame [i_n] whose reading
    minus that of [i_m], computed in double precision, is at least the double
    [MAX_SILENCE_BREAK]: no call before it declares a boundary, provided no
    frame in between is speech and the non-speech frames in between compute a
    difference below the threshold, and the boundary call leaves the timing
    globals reset.  Dropped frames in between do not matter. *)
Theorem silence_after_speech_ends_sentence (i_s i_m i_n : frame_input)
  (quiet : list frame_input) (g : globals) (b : bytearray) :
  classified i_s = Some true ->
  classified i_m = Some false ->
  unset (clock i_m) = false ->
  Forall (fun j => (exists frame, read j = Returns frame)
                   /\ classified j <> Some true
                   /\ (classified j = Some false ->
                       (MAX_SILENCE_BREAK <=? clock j - clock i_m) = false))
         quiet ->
  classified i_n = Some false ->
  (MAX_SILENCE_BREAK <=? clock i_n - clock i_m) = true ->
  exists r,
    observe (i_s :: i_m :: quiet ++ [i_n]) g b = Returns r
    /\ flags r = repeat false (2 + List.length quiet) ++ [true]
    /\ is_reset (final r).
Proof.
  intros Hs Hm Hclock Hquiet Hn Hlong.
  apply classified_inv in Hs as (fs & Hrs & Hfs & Hvs).
  apply classified_inv in Hm as (fm & Hrm & Hfm & Hvm).
  apply classified_inv in Hn as (fn & Hrn & Hfn & Hvn).
  set (g1 := set_timing (-1) true g).
  set (g2 := set_timing (clock i_m) true g1).
  assert (Hu : unset (silence_start g2) = false) by exact Hclock.
  destruct (@quiet_run quiet g2 ((b ++ fs) ++ fm) Hu Hquiet) as [b' Hq].
  destruct (@step_boundary i_n g2 b' fn Hrn Hfn Hvn Hu) as [o Ho].
  { exact Hlong. }
  assert (H : reaches (i_s :: i_m :: quiet ++ [i_n]) g b
                (refresh_observer g2) (b' ++ fn)
                (false :: false :: repeat false (List.length quiet) ++ [true])).
  { eapply reaches_step; [exact (@step_speech i_s g b fs Hrs Hfs Hvs)|].
    eapply reaches_step;
      [exact (@step_silence_begins i_m g1 (b ++ fs) fm Hrm Hfm Hvm
                eq_refl eq_refl)|].
    eapply reaches_app; [exact Hq|].
    eapply reaches_step; [exact Ho|apply reaches_nil]. }
  destruct H as (r & Hr & Hfinal & _ & Hfl). exists r.
  split; [exact Hr|]. split; [exact Hfl|]. rewrite Hfinal. split; reflexivity.
Qed.

Lemma silence_after_speech_ends_sentence_witness :
  exists r,
    observe (speech_frame :: silent_frame 1
               :: [silent_frame 1.5; faulty_frame] ++ [silent_frame 2])
      started [] = Returns r
    /\ flags r = repeat false (2 + 2) ++ [true]
    /\ is_reset (final r).
Proof.
  apply (@silence_after_speech_ends_sentence speech_frame (silent_frame 1)
           (silent_frame 2) [silent_frame 1.5; faulty_frame] started []).
  - reflexivity.
  - reflexivity.
  - reflexivity.
  - repeat constructor; try (eexists; reflexivity); try discriminate.
  - reflexivity.
  - reflexivity.
Defined.

(** [silent_observer] assigns to [silence_start] and [did_speak] only. *)
Lemma step_devices (i : frame_input) (g : globals) (b : bytearray)
  (o : observed) :
  silent_observer i g b = Returns o ->
  vad (st o) = vad g /\ pa (st o) = pa g /\ stream (st o) = stream g
  /\ enabled (st o) = enabled g.
Proof.
  intros Ho. apply step_cases in Ho. destruct Ho; cbn; auto.
Qed.

(** * Properties of the client *)

Lemma connect_cases (net : outcome response) (p : process) :
  (handshake_ok net /\ snd (connect_to_server net p) = Finished tt)
  \/ (~ handshake_ok net /\ snd (connect_to_server net p) = Exits 1%Z).
Proof.
  unfold connect_to_server, handshake_ok.
  destruct net as [resp|e]; cbn [bind].
  2: { right. split; [|reflexivity]. intros (r0 & it & H & _). discriminate. }
  destruct (raise_for_status resp) as [[]|e] eqn:Hs; cbn [bind].
  2: { right. split; [|reflexivity].
       intros (r0 & it & [= <-] & H & _). congruence. }
  destruct (json resp) as [v|e] eqn:Hj; cbn [bind].
  2: { right. split; [|reflexivity].
       intros (r0 & it & [= <-] & _ & H & _). congruence. }
  destruct v as [| | | | |l|items]; cbn [get];
    try (right; split; [|reflexivity];
         intros (r0 & it & [= <-] & _ & H & _); congruence).
  destruct (lookup "version" items) as [x|] eqn:Hl.
  2: { right. split; [|reflexivity].
       intros (r0 & it & [= <-] & _ & H & Hl'). congruence. }
  destruct x as [| | | |s| |]; cbn [differs_from negb];
    try (right; split; [|reflexivity];
         intros (r0 & it & [= <-] & _ & H & Hl'); congruence).
  destruct (String.eqb s version) eqn:E; cbn [negb snd].
  - apply String.eqb_eq in E. subst s. left. split; [|reflexivity].
    exists resp, items. repeat split; auto.
  - apply String.eqb_neq in E. right. split; [|reflexivity].
    intros (r0 & it & [= <-] & _ & H & Hl'). congruence.
Qed.

Lemma connect_effects (net : outcome response) (p : process) :
  sent (fst (connect_to_server net p)) = sent p ++ [register_request]
  /\ observer (fst (connect_to_server net p)) = observer p
  /\ sentence_buf (fst (connect_to_server net p)) = sentence_buf p
  /\ exit_handlers (fst (connect_to_server net p)) = exit_handlers p.
Proof.
  unfold connect_to_server.
  destruct (resp <- net;; _ <- raise_for_status resp;; body <- json resp;;
            get body "version") as [v|e];
    [destruct (differs_from v version)|]; repeat split.
Qed.

Lemma enable_mira_finishes (net : outcome response) (p : process) :
  snd (enable_mira net p) = Finished tt
  /\ exit_handlers (fst (enable_mira net p)) = exit_handlers p.
Proof.
  unfold enable_mira.
  now destruct (resp <- net;; raise_for_status resp).
Qed.

Lemma process_interaction_finishes (net : outcome response)
  (buffer : bytearray) (p : process) :
  exists v, snd (process_interaction net buffer p) = Finished v.
Proof.
  unfold process_interaction.
  destruct (resp <- net;; _ <- raise_for_status resp;; json resp);
    eexists; reflexivity.
Qed.

(** X7: [connect_to_server] returns normally exactly when the registration is
    accepted with the client's own version; in every other case (the request
    or the status check raises, the body is no JSON object, the version is
    missing or different) it ends the process with status 1.  It issues the
    one registration request and leaves the observer alone. *)
Theorem connect_to_server_checks_version (net : outcome response)
  (p : process) :
  (snd (connect_to_server net p) = Finished tt <-> handshake_ok net)
  /\ (snd (connect_to_server net p) = Finished tt
      \/ snd (connect_to_server net p) = Exits 1%Z)
  /\ sent (fst (connect_to_server net p)) = sent p ++ [register_request]
  /\ observer (fst (connect_to_server net p)) = observer p.
Proof.
  destruct (connect_effects net p) as (Hsent & Hobs & _).
  destruct (connect_cases net p) as [[Hok Hres]|[Hno Hres]]; rewrite Hres.
  - repeat split; auto.
  - repeat split; auto; [discriminate|].
    intros Hok. contradiction.
Qed.

(** X8: [disconnect_from_server], [enable_mira], [disable_mira] and
    [process_interaction] are best effort: whatever the network does (the
    request raises, the status is an error, the body does not decode) each
    returns normally after issuing its one request; [process_interaction]
    sends the bytes of the buffer it is given and answers [None] on any
    failure. *)
Theorem best_effort_calls_always_return (net : outcome response)
  (buffer : bytearray) (p : process) :
  (snd (disconnect_from_server net p) = Finished tt
   /\ sent (fst (disconnect_from_server net p)) = sent p ++ [deregister_request])
  /\ (snd (enable_mira net p) = Finished tt
      /\ sent (fst (enable_mira net p)) = sent p ++ [enable_request])
  /\ (snd (disable_mira net p) = Finished tt
      /\ sent (fst (disable_mira net p)) = sent p ++ [disable_request])
  /\ (snd (process_interaction net buffer p)
      = Finished (match (resp <- net ;; _ <- raise_for_status resp ;; json resp)
                  with Returns v => v | Raises _ => PyNone end)
      /\ sent (fst (process_interaction net buffer p))
         = sent p ++ [interaction_request buffer]
      /\ uploads [interaction_request buffer] = [buffer]).
Proof.
  unfold disconnect_from_server, enable_mira, disable_mira, process_interaction.
  destruct net as [resp|e]; cbn [bind]; [|repeat split].
  destruct (raise_for_status resp) as [[]|e]; cbn [bind]; [|repeat split].
  destruct (json resp) as [v|e]; repeat split.
Qed.

Lemma iteration_poll (inp : iteration_input) (p : process) :
  iteration inp p
  = let p := send poll_request p in
    match poll_flag inp with
    | Raises e => (p, Fails e)
    | Returns flag =>
        if is_False flag then
          if is_observer_running (observer p) then
            match kill_observer (kill inp) (observer p) with
            | (g, Raises e) => (set_observer g p, Fails e)
            | (g, Returns _) =>
                (set_sentence_buf [] (set_observer g p), Finished tt)
            end
          else (p, Finished tt)
        else
          match ensure_started (starting inp) p with
          | (p, Fails e) => (p, Fails e)
          | (p, Exits code) => (p, Exits code)
          | (p, Finished _) =>
              match observe_frame (frame inp) p with
              | (p, Fails e) => (p, Fails e)
              | (p, Exits code) => (p, Exits code)
              | (p, Finished is_sentence_complete) =>
                  if negb is_sentence_complete then (p, Finished tt)
                  else
                    (fst (process_interaction (upload inp) (sentence_buf p) p),
                     Finished tt)
              end
          end
    end.
Proof.
  unfold iteration, poll_flag. cbv zeta.
  destruct (resp <- poll inp;; status <- json resp;; get status "enabled");
    [|reflexivity].
  destruct (is_False a); [reflexivity|].
  destruct (ensure_started (starting inp) (send poll_request p))
    as [p1 [[]|c|e]];
    try reflexivity.
  destruct (observe_frame (frame inp) p1) as [p2 [done|c|e]]; try reflexivity.
  destruct (negb done); [reflexivity|].
  destruct (process_interaction_finishes (upload inp) (sentence_buf p2) p2)
    as [v H].
  destruct (process_interaction (upload inp) (sentence_buf p2) p2) as [p3 r].
  cbn [snd fst] in *. now rewrite H.
Qed.

Lemma ex_returns (A : Type) (a : A) (Q : A -> Prop) :
  (exists f, Returns a = Returns f /\ Q f) <-> Q a.
Proof.
  split; [intros (f & [= <-] & H); exact H|intros H; now exists a].
Qed.

(** X9: what can make an iteration of the main loop fail, that is, end
    the program with "Runtime error": exactly a fault of the poll (the request
    raises, the body does not decode or is no JSON object), of the device
    calls of [kill_observer] or [start_observer] when they are reached, or of
    the read of the frame.  The answer to the upload never does, and no
    iteration ends the process by itself. *)
Theorem iteration_finishes_iff (inp : iteration_input) (p : process) :
  (snd (iteration inp p) = Finished tt <-> iteration_ok inp p)
  /\ (forall code, snd (iteration inp p) <> Exits code).
Proof.
  rewrite iteration_poll. unfold iteration_ok. cbv zeta.
  change (observer (send poll_request p)) with (observer p).
  destruct (poll_flag inp) as [flag|e]; cbn [snd].
  2: { split; [split; [discriminate|intros (f & H & _); discriminate]
              |discriminate]. }
  rewrite ex_returns.
  destruct (is_False flag).
  - destruct (is_observer_running (observer p)); cbn [snd].
    + destruct (kill_observer (kill inp) (observer p)) as [g' [[]|e]];
        cbn [snd].
      * split; [|discriminate]. split; reflexivity.
      * split; [|discriminate]. split; [discriminate|].
        intros H. specialize (H eq_refl). discriminate.
    + split; [|discriminate]. split; [discriminate|reflexivity].
  - unfold ensure_started.
    change (observer (send poll_request p)) with (observer p).
    destruct (is_observer_running (observer p)); cbn [negb].
    + unfold observe_frame.
      change (observer (send poll_request p)) with (observer p).
      change (sentence_buf (send poll_request p)) with (sentence_buf p).
      destruct (silent_observer (frame inp) (observer p) (sentence_buf p))
        as [o|e] eqn:Ho.
      * apply step_returns_inv in Ho as [bytes Hb].
        destruct (negb (complete o)); cbn [snd];
          (split; [split; [intros _; split; [discriminate|now exists bytes]
                          |reflexivity]
                  |discriminate]).
      * apply step_raises_iff in Ho. cbn [snd].
        split; [|discriminate]. split; [discriminate|].
        intros (_ & bytes & Hb). congruence.
    + destruct (start_observer (starting inp) (observer p)) as [g' [[]|e]];
        cbn [snd].
      * unfold observe_frame. cbn [observer sentence_buf set_sentence_buf
                                   set_observer send].
        match goal with
        | |- context [silent_observer ?i ?g ?b] =>
            destruct (silent_observer i g b) as [o|e] eqn:Ho
        end.
        -- apply step_returns_inv in Ho as [bytes Hb].
           destruct (negb (complete o)); cbn [snd];
             (split; [split; [intros _; split; [reflexivity|now exists bytes]
                             |reflexivity]
                     |discriminate]).
        -- apply step_raises_iff in Ho. cbn [snd].
           split; [|discriminate]. split; [discriminate|].
           intros (_ & bytes & Hb). congruence.
      * split; [|discriminate]. split; [discriminate|].
        intros (H & _). specialize (H eq_refl). discriminate.
Qed.

(** X10: when the server answers ["enabled": false], the iteration reads
    no frame and uploads nothing: it issues the poll alone and prints nothing.
    If it finishes, the observer is not running afterwards; a running
    observer has been killed and the buffer emptied, and with no observer
    running nothing changes at all. *)
Theorem disabled_iteration_stops_observer (inp : iteration_input)
  (p : process) :
  poll_flag inp = Returns (PyBool false) ->
  sent (fst (iteration inp p)) = sent p ++ [poll_request]
  /\ console (fst (iteration inp p)) = console p
  /\ (snd (iteration inp p) = Finished tt ->
      is_observer_running (observer (fst (iteration inp p))) = false
      /\ (is_observer_running (observer p) = true ->
          sentence_buf (fst (iteration inp p)) = [])
      /\ (is_observer_running (observer p) = false ->
          fst (iteration inp p) = send poll_request p)).
Proof.
  intros Hpoll. rewrite iteration_poll, Hpoll. cbv zeta. cbn [is_False].
  change (observer (send poll_request p)) with (observer p).
  destruct (is_observer_running (observer p)) eqn:Hrun.
  - pose proof (kill_observer_running (kill inp) (observer p)) as Hen.
    destruct (kill_observer (kill inp) (observer p)) as [g' [[]|e]];
      cbn [fst snd] in *.
    + repeat split; auto. discriminate.
    + repeat split; auto; discriminate.
  - cbn [fst snd]. repeat split; auto. discriminate.
Qed.

Lemma disabled_iteration_stops_observer_witness :
  let inp := sample_iteration disabled_status speech_frame in
  sent (fst (iteration inp (listening 5))) = sent (listening 5) ++ [poll_request]
  /\ console (fst (iteration inp (listening 5))) = console (listening 5)
  /\ (snd (iteration inp (listening 5)) = Finished tt ->
      is_observer_running (observer (fst (iteration inp (listening 5)))) = false
      /\ (is_observer_running (observer (listening 5)) = true ->
          sentence_buf (fst (iteration inp (listening 5))) = [])
      /\ (is_observer_running (observer (listening 5)) = false ->
          fst (iteration inp (listening 5)) = send poll_request (listening 5))).
Proof.
  intros inp.
  apply (@disabled_iteration_stops_observer inp (listening 5)). reflexivity.
Defined.

(** X11: only the value [False] disables: with any other answer for
    ["enabled"] (the key missing, [null], [0], a string) the
    iteration does exactly what it does for [True]. *)
Theorem only_False_disables (inp inp' : iteration_input) (p : process)
  (flag : pyval) :
  poll_flag inp = Returns flag ->
  flag <> PyBool false ->
  poll_flag inp' = Returns (PyBool true) ->
  kill inp' = kill inp ->
  starting inp' = starting inp ->
  frame inp' = frame inp ->
  upload inp' = upload inp ->
  iteration inp p = iteration inp' p.
Proof.
  intros Hflag Hne Htrue Hk Ho Hf Hu.
  rewrite !iteration_poll, Hflag, Htrue, Hk, Ho, Hf, Hu. cbv zeta.
  assert (His : is_False flag = false).
  { destruct flag as [|[|]| | | | |]; try reflexivity. now elim Hne. }
  rewrite His. reflexivity.
Qed.

Lemma only_False_disables_witness :
  poll_flag (sample_iteration empty_status speech_frame) = Returns PyNone
  /\ iteration (sample_iteration empty_status speech_frame) (listening 5)
     = iteration (sample_iteration enabled_status speech_frame) (listening 5).
Proof.
  split; [reflexivity|].
  apply (@only_False_disables (sample_iteration empty_status speech_frame)
           (sample_iteration enabled_status speech_frame) (listening 5) PyNone);
    try reflexivity.
  discriminate.
Defined.

(** X12: when the observer is not running and the server does not disable
    the client, the iteration starts the observer and begins a new buffer:
    the frame is handled from the reset state and, if the iteration
    finishes, the buffer holds nothing but what this one call appended.
    What was in the buffer before is gone. *)
Theorem restart_begins_new_buffer (inp : iteration_input) (p : process)
  (flag : pyval) (o : observed) :
  poll_flag inp = Returns flag ->
  is_False flag = false ->
  is_observer_running (observer p) = false ->
  snd (start_observer (starting inp) (observer p)) = Returns tt ->
  silent_observer (frame inp)
    (fst (start_observer (starting inp) (observer p))) []
  = Returns o ->
  is_reset (fst (start_observer (starting inp) (observer p)))
  /\ snd (iteration inp p) = Finished tt
  /\ observer (fst (iteration inp p)) = st o
  /\ sentence_buf (fst (iteration inp p)) = appended (frame inp).
Proof.
  intros Hflag His Hrun Hopen Ho.
  pose proof (step_buf _ _ _ Ho) as Hbuf. cbn [app] in Hbuf.
  rewrite iteration_poll, Hflag, His. cbv zeta. unfold ensure_started.
  change (observer (send poll_request p)) with (observer p).
  rewrite Hrun. cbn [negb].
  destruct (start_observer (starting inp) (observer p)) as [g' res] eqn:Hstart.
  cbn [fst snd] in Hopen, Ho |- *. subst res.
  split; [apply start_observer_returns in Hstart as (H1 & H2 & _); now split|].
  unfold observe_frame.
  cbn [observer sentence_buf set_sentence_buf set_observer].
  rewrite Ho.
  destruct (negb (complete o)); cbn [fst snd observer sentence_buf];
    [now repeat split|].
  unfold process_interaction.
  destruct (resp <- upload inp;; _ <- raise_for_status resp;; json resp);
    cbn [fst snd observer sentence_buf send print]; now repeat split.
Qed.

Lemma restart_begins_new_buffer_witness :
  let p := mkProcess fresh_globals [Byte.x01; Byte.x02] [] [] [] in
  let inp := sample_iteration enabled_status speech_frame in
  is_reset (fst (start_observer (starting inp) (observer p)))
  /\ snd (iteration inp p) = Finished tt
  /\ observer (fst (iteration inp p)) = set_timing (-1) true started
  /\ sentence_buf (fst (iteration inp p)) = appended (frame inp).
Proof.
  intros p inp.
  apply (@restart_begins_new_buffer inp p (PyBool true)
           (mkObserved (set_timing (-1) true started) [PrintStatus Speaking]
              zero_frame false)); reflexivity.
Defined.

(** ** The loop *)

Lemma uploads_app (l1 l2 : list request) :
  uploads (l1 ++ l2) = uploads l1 ++ uploads l2.
Proof. apply flat_map_app. Qed.

Lemma growing_from_shorter (start more : bytearray) (bodies : list bytearray) :
  growing (start ++ more) bodies -> growing start bodies.
Proof.
  destruct bodies as [|body rest]; [trivial|]. cbn [growing].
  intros [[t ->] H]. split; [|exact H]. exists (more ++ t).
  now rewrite app_assoc.
Qed.

(** An iteration with the observer running and the client enabled. *)
Lemma iteration_listening (inp : iteration_input) (p : process) (flag : pyval) :
  is_observer_running (observer p) = true ->
  poll_flag inp = Returns flag ->
  is_False flag = false ->
  (exists e, iteration inp p = (send poll_request p, Fails e))
  \/ (exists o p',
         silent_observer (frame inp) (observer p) (sentence_buf p) = Returns o
         /\ iteration inp p = (p', Finished tt)
         /\ observer p' = st o
         /\ sentence_buf p' = buf o
         /\ exit_handlers p' = exit_handlers p
         /\ sent p'
            = sent p ++ poll_request
                :: (if complete o then [interaction_request (buf o)] else [])).
Proof.
  intros Hrun Hflag His. rewrite iteration_poll, Hflag, His. cbv zeta.
  unfold ensure_started. change (observer (send poll_request p)) with (observer p).
  rewrite Hrun. cbn [negb]. unfold observe_frame.
  change (observer (send poll_request p)) with (observer p).
  change (sentence_buf (send poll_request p)) with (sentence_buf p).
  destruct (silent_observer (frame inp) (observer p) (sentence_buf p))
    as [o|e]; [right|left; now exists e].
  exists o. destruct (complete o); cbn [negb].
  - eexists. split; [reflexivity|]. split; [reflexivity|].
    unfold process_interaction.
    destruct (resp <- upload inp;; _ <- raise_for_status resp;; json resp);
      cbn; rewrite <- app_assoc; repeat split.
  - eexists. split; [reflexivity|]. split; [reflexivity|]. cbn. repeat split.
Qed.

(** X13: the main loop never empties the buffer after a sentence.  While the
    observer runs and the server keeps the client enabled, each upload
    contains the whole upload before it (and the buffer the loop began
    with), and the buffer at the end contains every upload: the audio of a
    sentence is sent again with every later sentence. *)
Theorem uploads_accumulate (evs : list iteration_input) :
  forall (p p' : process) (res : option Z),
    is_observer_running (observer p) = true ->
    kept_enabled evs ->
    loop evs p = (p', res) ->
    exists new,
      sent p' = sent p ++ new
      /\ growing (sentence_buf p) (uploads new)
      /\ (exists more, sentence_buf p' = sentence_buf p ++ more)
      /\ (forall body, In body (uploads new) ->
                       exists more, sentence_buf p' = body ++ more).
Proof.
  induction evs as [|inp evs IH]; intros p p' res Hrun Hen Hloop.
  - injection Hloop as <- _. exists []. rewrite app_nil_r.
    repeat split; [exists []; now rewrite app_nil_r|intros body []].
  - inversion Hen as [|? ? (flag & Hflag & His) Hrest]; subst.
    cbn [loop] in Hloop.
    destruct (iteration_listening inp p Hrun Hflag His)
      as [[e He]|(o & p1 & Ho & Hit & Hobs & Hbuf & _ & Hsent)].
    + rewrite He in Hloop. injection Hloop as <- _.
      exists [poll_request].
      repeat split; [exists []; cbn; now rewrite app_nil_r|intros body []].
    + rewrite Hit in Hloop.
      assert (Hrun1 : is_observer_running (observer p1) = true).
      { rewrite Hobs. unfold is_observer_running in *.
        destruct (step_devices _ _ _ Ho) as (_ & _ & _ & ->). exact Hrun. }
      destruct (IH p1 p' res Hrun1 Hrest Hloop)
        as (new & Hnew & Hgrow & [more Hmore] & Hin).
      pose proof (step_buf _ _ _ Ho) as Happ. rewrite Hbuf in *.
      exists (poll_request
                :: (if complete o then [interaction_request (buf o)] else [])
                   ++ new).
      split; [rewrite Hnew, Hsent, <- app_assoc; reflexivity|].
      change (poll_request :: ?l) with ([poll_request] ++ l).
      rewrite !uploads_app. change (uploads [poll_request]) with (@nil bytearray).
      cbn [app].
      split; [|split].
      * destruct (complete o).
        -- change (uploads [interaction_request (buf o)]) with [buf o].
           cbn [app growing]. split; [|exact Hgrow]. now exists (appended (frame inp)).
        -- cbn [uploads flat_map app]. rewrite Happ in Hgrow.
           now apply growing_from_shorter in Hgrow.
      * exists (appended (frame inp) ++ more). now rewrite Hmore, Happ, app_assoc.
      * intros body Hbody. apply in_app_or in Hbody as [Hbody|Hbody]; [|auto].
        destruct (complete o); [|destruct Hbody].
        change (uploads [interaction_request (buf o)]) with [buf o] in Hbody.
        destruct Hbody as [<-|[]]. now exists more.
Qed.

Lemma uploads_accumulate_witness :
  let p := listening 0 in
  let p' := fst (loop two_iterations p) in
  uploads (sent p') = [[Byte.x01] ++ zero_frame]
  /\ exists new,
       sent p' = sent p ++ new
       /\ growing (sentence_buf p) (uploads new)
       /\ (exists more, sentence_buf p' = sentence_buf p ++ more)
       /\ (forall body, In body (uploads new) ->
                        exists more, sentence_buf p' = body ++ more).
Proof.
  intros p p'. split; [reflexivity|].
  apply (@uploads_accumulate two_iterations p p' (snd (loop two_iterations p))).
  - reflexivity.
  - constructor; [eexists; split; reflexivity|].
    constructor; [eexists; split; reflexivity|]. constructor.
  - apply surjective_pairing.
Defined.

(** ** The program *)

Lemma iteration_handlers (inp : iteration_input) (p : process) :
  exit_handlers (fst (iteration inp p)) = exit_handlers p.
Proof.
  rewrite iteration_poll. cbv zeta.
  destruct (poll_flag inp) as [flag|e]; [|reflexivity].
  destruct (is_False flag).
  - change (observer (send poll_request p)) with (observer p).
    destruct (is_observer_running (observer p)); [|reflexivity].
    now destruct (kill_observer (kill inp) (observer p)) as [g' [[]|e]].
  - unfold ensure_started. change (observer (send poll_request p)) with (observer p).
    destruct (is_observer_running (observer p)); cbn [negb].
    + unfold observe_frame.
      destruct (silent_observer _ _ _) as [o|e]; [|reflexivity].
      destruct (negb (complete o)); [reflexivity|].
      unfold process_interaction.
      now destruct (resp <- upload inp;; _ <- raise_for_status resp;; json resp).
    + destruct (start_observer (starting inp) (observer p)) as [g' [[]|e]];
        [|reflexivity].
      unfold observe_frame.
      destruct (silent_observer _ _ _) as [o|e]; [|reflexivity].
      destruct (negb (complete o)); [reflexivity|].
      unfold process_interaction.
      now destruct (resp <- upload inp;; _ <- raise_for_status resp;; json resp).
Qed.

Lemma loop_handlers (evs : list iteration_input) :
  forall (p p' : process) (res : option Z),
    loop evs p = (p', res) -> exit_handlers p' = exit_handlers p.
Proof.
  induction evs as [|inp evs IH]; intros p p' res H; cbn [loop] in H.
  - now injection H as <- _.
  - pose proof (iteration_handlers inp p) as Hh.
    destruct (iteration inp p) as [p1 [[]|c|e]]; cbn [fst] in Hh.
    + rewrite <- Hh. eauto.
    + injection H as <- _. exact Hh.
    + injection H as <- _. exact Hh.
Qed.

Lemma iteration_never_exits (inp : iteration_input) (p : process)
  (code : Z) :
  snd (iteration inp p) <> Exits code.
Proof.
  rewrite iteration_poll. cbv zeta.
  destruct (poll_flag inp) as [flag|e]; [|discriminate].
  destruct (is_False flag).
  - destruct (is_observer_running _); [|discriminate].
    now destruct (kill_observer _ _) as [g' [[]|e]].
  - unfold ensure_started. destruct (negb _).
    + destruct (start_observer _ _) as [g' [[]|e]]; [|discriminate].
      unfold observe_frame. destruct (silent_observer _ _ _); [|discriminate].
      now destruct (negb _).
    + unfold observe_frame. destruct (silent_observer _ _ _); [|discriminate].
      now destruct (negb _).
Qed.

(** The loop ends only on an exception in an iteration, with status 1 and
    "Runtime error" as the last line printed. *)
Lemma loop_status (evs : list iteration_input) :
  forall (p p' : process) (code : Z),
    loop evs p = (p', Some code) ->
    code = 1%Z
    /\ exists e before,
         console p' = before ++ [Text ("Runtime error: " ++ e)%string].
Proof.
  induction evs as [|inp evs IH]; intros p p' code H; cbn [loop] in H.
  - discriminate.
  - pose proof (iteration_never_exits inp p) as Hne.
    destruct (iteration inp p) as [p1 [[]|c|e]]; cbn [snd] in Hne.
    + eauto.
    + now elim (Hne c).
    + injection H as <- <-. split; [reflexivity|].
      exists e, (console p1). reflexivity.
Qed.

Lemma startup_cases (inp : program_input) :
  let p0 := mkProcess fresh_globals [] [] [] [DisableMira; DisconnectFromServer] in
  (handshake_ok (registration inp)
   /\ startup inp
      = (fst (enable_mira (enabling inp)
                (fst (connect_to_server (registration inp) p0))),
         Finished tt))
  \/ (~ handshake_ok (registration inp)
      /\ startup inp
         = (fst (connect_to_server (registration inp) p0), Exits 1%Z)).
Proof.
  intros p0. unfold startup. cbv zeta.
  change (atexit_register DisconnectFromServer
            (atexit_register DisableMira (mkProcess fresh_globals [] [] [] [])))
    with p0.
  destruct (connect_cases (registration inp) p0) as [[Hok Hres]|[Hno Hres]];
    destruct (connect_to_server (registration inp) p0) as [p1 res];
    cbn [fst snd] in *; subst res.
  - left. split; [assumption|].
    pose proof (enable_mira_finishes (enabling inp) p1) as [H _].
    destruct (enable_mira (enabling inp) p1) as [p2 r]. cbn [fst snd] in *.
    now rewrite H.
  - right. now split.
Qed.

Lemma at_exit_two (inp : program_input) (p : process) :
  exit_handlers p = [DisableMira; DisconnectFromServer] ->
  sent (at_exit inp p) = sent p ++ [deregister_request; disable_request]
  /\ observer (at_exit inp p) = observer p
  /\ sentence_buf (at_exit inp p) = sentence_buf p
  /\ exists l1 l2, console (at_exit inp p) = console p ++ [l1; l2].
Proof.
  intros Hh. unfold at_exit. rewrite Hh. cbn [rev app fold_left run_handler].
  unfold disable_mira, disconnect_from_server.
  destruct (resp <- deregistration inp;; raise_for_status resp);
    destruct (resp <- disabling inp;; raise_for_status resp);
    cbn; rewrite <- !app_assoc; repeat split; do 2 eexists; reflexivity.
Qed.

Lemma startup_handlers (inp : program_input) :
  exit_handlers (fst (startup inp)) = [DisableMira; DisconnectFromServer].
Proof.
  destruct (startup_cases inp) as [[_ ->]|[_ ->]]; cbn [fst].
  - unfold enable_mira, connect_to_server.
    destruct (resp <- enabling inp;; raise_for_status resp) as [u|e1];
      destruct (resp <- registration inp;; _ <- raise_for_status resp;;
                body <- json resp;; get body "version") as [v|e2];
      try destruct (differs_from v version); reflexivity.
  - unfold connect_to_server.
    destruct (resp <- registration inp;; _ <- raise_for_status resp;;
              body <- json resp;; get body "version") as [v|e];
      try destruct (differs_from v version); reflexivity.
Qed.

(** X14: in a run in which no signal arrives, whenever the program ends (the
    registration is refused, or an exception leaves an iteration), the
    functions registered with [atexit] run last registered first: the
    process issues the deregistration and then the disabling request, in
    this order, as its last two requests.  Nothing else happens on the way
    out; in particular the observer is left as it was, and a running one is
    never killed. *)
Theorem exit_sends_deregister_then_disable (inp : program_input)
  (p : process) (code : Z) :
  main inp = (p, Some code) ->
  exists p0,
    (startup inp = (p0, Exits code)
     \/ exists p1, startup inp = (p1, Finished tt)
                   /\ loop (iterations inp) p1 = (p0, Some code))
    /\ sent p = sent p0 ++ [deregister_request; disable_request]
    /\ observer p = observer p0
    /\ sentence_buf p = sentence_buf p0.
Proof.
  intros Hmain. unfold main in Hmain.
  pose proof (startup_handlers inp) as Hh.
  destruct (startup_cases inp) as [[_ Hs]|[_ Hs]]; rewrite Hs in Hmain, Hh |- *;
    cbn [fst] in Hh.
  - destruct (loop (iterations inp) _) as [p0 [c|]] eqn:Hloop; [|discriminate].
    injection Hmain as <- <-. exists p0.
    split; [right; eexists; split; [reflexivity|exact Hloop]|].
    rewrite <- (loop_handlers _ _ Hloop) in Hh.
    destruct (at_exit_two inp _ Hh) as (H1 & H2 & H3 & _). now repeat split.
  - injection Hmain as <- <-. eexists. split; [left; reflexivity|].
    destruct (at_exit_two inp _ Hh) as (H1 & H2 & H3 & _). now repeat split.
Qed.

Lemma exit_sends_deregister_then_disable_witness :
  let inp := sample_program version_reply
               [sample_iteration enabled_status speech_frame; failing_poll] in
  main inp = (fst (main inp), Some 1%Z)
  /\ exists p0,
       (startup inp = (p0, Exits 1%Z)
        \/ exists p1, startup inp = (p1, Finished tt)
                      /\ loop (iterations inp) p1 = (p0, Some 1%Z))
       /\ sent (fst (main inp)) = sent p0 ++ [deregister_request; disable_request]
       /\ observer (fst (main inp)) = observer p0
       /\ sentence_buf (fst (main inp)) = sentence_buf p0.
Proof.
  intros inp. split; [vm_compute; reflexivity|].
  apply (@exit_sends_deregister_then_disable inp (fst (main inp)) 1%Z).
  vm_compute; reflexivity.
Defined.

(** X15: when the registration is not accepted the program ends with status
    1 before it enables anything or touches the observer, and the handlers
    of [atexit] still run: the requests of the whole process are the
    registration, the deregistration and the disabling, in this order. *)
Theorem failed_registration_still_deregisters (inp : program_input) :
  ~ handshake_ok (registration inp) ->
  exists p,
    main inp = (p, Some 1%Z)
    /\ sent p = [register_request; deregister_request; disable_request]
    /\ observer p = fresh_globals
    /\ sentence_buf p = [].
Proof.
  intros Hno. unfold main.
  pose proof (startup_handlers inp) as Hh.
  destruct (startup_cases inp) as [[Hok _]|[_ Hs]]; [contradiction|].
  rewrite Hs in Hh |- *. cbn [fst] in Hh. eexists. split; [reflexivity|].
  destruct (at_exit_two inp _ Hh) as (-> & -> & -> & _).
  pose proof (connect_effects (registration inp)
                (mkProcess fresh_globals [] [] []
                   [DisableMira; DisconnectFromServer])) as (-> & -> & -> & _).
  repeat split.
Qed.

Lemma failed_registration_still_deregisters_witness :
  exists p,
    main (sample_program old_version_reply two_iterations) = (p, Some 1%Z)
    /\ sent p = [register_request; deregister_request; disable_request]
    /\ observer p = fresh_globals
    /\ sentence_buf p = [].
Proof.
  apply (@failed_registration_still_deregisters
           (sample_program old_version_reply two_iterations)).
  intros (resp & items & [= <-] & _ & [= <-] & H). discriminate H.
Defined.

(** X16: in a run in which no signal arrives the program never ends with
    status 0: it ends only when the registration is refused or an exception
    leaves an iteration and "Runtime error" is printed, and then with status
    1.  Status 0 is left to [signal_handler]. *)
Theorem exit_status_is_one_without_signal (inp : program_input)
  (p : process) (code : Z) :
  main inp = (p, Some code) ->
  code = 1%Z
  /\ (~ handshake_ok (registration inp)
      \/ (handshake_ok (registration inp)
          /\ exists e, In (Text ("Runtime error: " ++ e)%string) (console p))).
Proof.
  intros Hmain. unfold main in Hmain.
  pose proof (startup_handlers inp) as Hh.
  destruct (startup_cases inp) as [[Hok Hs]|[Hno Hs]];
    rewrite Hs in Hmain, Hh; cbn [fst] in Hh.
  - destruct (loop (iterations inp) _) as [p0 [c|]] eqn:Hloop; [|discriminate].
    injection Hmain as <- <-.
    destruct (loop_status _ _ Hloop) as (-> & e & before & Hconsole).
    split; [reflexivity|]. right. split; [assumption|]. exists e.
    rewrite <- (loop_handlers _ _ Hloop) in Hh.
    destruct (at_exit_two inp _ Hh) as (_ & _ & _ & l1 & l2 & ->).
    rewrite Hconsole. apply in_or_app. left. apply in_or_app. right. now left.
  - injection Hmain as _ <-. split; [reflexivity|now left].
Qed.

Lemma exit_status_is_one_without_signal_witness :
  let inp := sample_program version_reply (two_iterations ++ [failing_poll]) in
  main inp = (fst (main inp), Some 1%Z)
  /\ (1%Z = 1%Z
      /\ (~ handshake_ok (registration inp)
          \/ (handshake_ok (registration inp)
              /\ exists e, In (Text ("Runtime error: " ++ e)%string)
                             (console (fst (main inp)))))).
Proof.
  intros inp. split; [vm_compute; reflexivity|].
  apply (@exit_status_is_one_without_signal inp (fst (main inp)) 1%Z).
  vm_compute; reflexivity.
Defined.

(** X17: with the observer running and the client enabled, an iteration
    uploads exactly when its call of [silent_observer] declares a boundary,
    and then the body is the whole buffer, the frame just read included.
    The iteration finishes whatever the server answers to the upload, and
    the loop keeps the buffer as [silent_observer] returned it. *)
Theorem upload_exactly_on_boundary (inp : iteration_input) (p : process)
  (flag : pyval) (o : observed) :
  is_observer_running (observer p) = true ->
  poll_flag inp = Returns flag ->
  is_False flag = false ->
  silent_observer (frame inp) (observer p) (sentence_buf p) = Returns o ->
  snd (iteration inp p) = Finished tt
  /\ uploads (sent (fst (iteration inp p)))
     = uploads (sent p) ++ (if complete o then [buf o] else [])
  /\ sentence_buf (fst (iteration inp p)) = buf o
  /\ buf o = sentence_buf p ++ appended (frame inp).
Proof.
  intros Hrun Hflag His Ho.
  destruct (iteration_listening inp p Hrun Hflag His)
    as [[e He]|(o' & p' & Ho' & Hit & _ & Hbuf & _ & Hsent)].
  - rewrite iteration_poll, Hflag, His in He. cbv zeta in He.
    unfold ensure_started in He.
    change (observer (send poll_request p)) with (observer p) in He.
    rewrite Hrun in He. cbn [negb] in He. unfold observe_frame in He.
    change (observer (send poll_request p)) with (observer p) in He.
    change (sentence_buf (send poll_request p)) with (sentence_buf p) in He.
    rewrite Ho in He. destruct (negb (complete o)); discriminate He.
  - assert (o' = o) as -> by congruence.
    rewrite Hit. cbn [fst snd]. rewrite Hsent, Hbuf.
    change (poll_request :: ?l) with ([poll_request] ++ l).
    rewrite !uploads_app. change (uploads [poll_request]) with (@nil bytearray).
    cbn [app]. repeat split; [|eapply step_buf; eauto].
    destruct (complete o); reflexivity.
Qed.

Lemma upload_exactly_on_boundary_witness :
  let inp := sample_iteration enabled_status (silent_frame 1) in
  let p := listening 0 in
  snd (iteration inp p) = Finished tt
  /\ uploads (sent (fst (iteration inp p)))
     = uploads (sent p) ++ [[Byte.x01] ++ zero_frame]
  /\ sentence_buf (fst (iteration inp p)) = [Byte.x01] ++ zero_frame
  /\ [Byte.x01] ++ zero_frame = sentence_buf p ++ appended (frame inp).
Proof.
  intros inp p.
  apply (@upload_exactly_on_boundary inp p (PyBool true)
           (mkObserved (refresh_observer (in_silence 0))
              [PrintStatus (Silence (1 - 0))] ([Byte.x01] ++ zero_frame) true));
    reflexivity.
Defined.
